(** * dvc.fs.fsspec_wrapper: the filesystem wrappers over an fsspec driver

    A shallow embedding of [dvc/fs/fsspec_wrapper.py].  The wrapper classes
    forward every operation to a driver object ([self.fs]); the driver, the
    path helper ([self.path]) and the progress callback are collaborators
    that live outside the file and are taken here as records of operations
    over an abstract world state.  Exceptions keep the side effects done
    before they were raised, so a computation maps a state to an outcome
    together with the state reached. *)

From Stdlib Require Import String Ascii List ZArith Bool Lia.
Import ListNotations.
Local Open Scope string_scope.

(** ** Python values, exceptions and the effect monad *)

Inductive exn : Type :=
| FileNotFoundError
| FileExistsError
| NotImplementedError
| UnboundLocalError (var : string)
| IndexError
| ValueError
| OtherError (msg : string).

Inductive result (A : Type) : Type :=
| Ok (a : A)
| Raise (e : exn).
Arguments Ok {A} a.
Arguments Raise {A} e.

Definition M (St A : Type) : Type := St -> result A * St.

Definition ret {St A} (a : A) : M St A := fun s => (Ok a, s).

Definition raise {St A} (e : exn) : M St A := fun s => (Raise e, s).

Definition bind {St A B} (m : M St A) (k : A -> M St B) : M St B :=
  fun s => match m s with
           | (Ok a, s1) => k a s1
           | (Raise e, s1) => (Raise e, s1)
           end.

Declare Scope py_scope.
Delimit Scope py_scope with py.
Notation "x <- m ;; k" := (bind m (fun x => k))
  (at level 61, m at next level, right associativity) : py_scope.
Notation "m ;;; k" := (bind m (fun _ => k))
  (at level 61, right associativity) : py_scope.
Local Open Scope py_scope.

(** [try: body except FileNotFoundError: handler] *)
Definition try_except_FileNotFoundError {St A} (body handler : M St A) : M St A :=
  fun s => match body s with
           | (Raise FileNotFoundError, s1) => handler s1
           | r => r
           end.

(** [with h as x: body]: [release] runs on every exit path, and an
    exception of the body wins unless the release raises itself. *)
Definition with_ {St A} (release : M St unit) (body : M St A) : M St A :=
  fun s => match body s with
           | (Ok a, s1) => match release s1 with
                           | (Ok _, s2) => (Ok a, s2)
                           | (Raise e, s2) => (Raise e, s2)
                           end
           | (Raise e, s1) => match release s1 with
                              | (Ok _, s2) => (Raise e, s2)
                              | (Raise e', s2) => (Raise e', s2)
                              end
           end.

(** The few Python values that travel through [*args] and [**kwargs]. *)
Inductive pyval : Type :=
| PyNone
| PyBool (b : bool)
| PyInt (z : Z)
| PyStr (s : string).

Definition truthy (v : pyval) : bool :=
  match v with
  | PyNone => false
  | PyBool b => b
  | PyInt z => negb (z =? 0)%Z
  | PyStr s => negb (s =? "")
  end.

Definition kwargs : Type := list (string * pyval).

Fixpoint kw_get (k : string) (kw : kwargs) : option pyval :=
  match kw with
  | [] => None
  | (k', v) :: rest => if k' =? k then Some v else kw_get k rest
  end.

(** [kwargs.pop(k, default)], the value only. *)
Definition kw_pop (k : string) (default : pyval) (kw : kwargs) : pyval :=
  match kw_get k kw with
  | Some v => v
  | None => default
  end.

(** [s.endswith(suffix)] *)
Definition endswith (s suffix : string) : bool :=
  let n := String.length s in
  let m := String.length suffix in
  if (m <=? n)%nat then substring (n - m) m s =? suffix else false.

(** [s.startswith(p)] *)
Definition startswith (s p : string) : bool := prefix p s.

(** ** Entries, listings and streams *)

(** An [info()] entry: [Entry = Dict[str, Any]] with the three keys the
    wrappers read; the rest of the driver's metadata passes through. *)
Record Entry : Type := mkEntry {
  e_name : string;
  e_type : string;
  e_size : option Z;          (* [None]: the driver gave no size *)
  e_extra : list (string * string)
}.

(** What a wrapper's [ls] or [find] yields: a name or an entry. *)
Inductive item : Type :=
| IName (s : string)
| IEntry (e : Entry).

(** [x == path] for an item [x] and a [str]: a dict never equals a str. *)
Definition item_eq_str (x : item) (p : string) : bool :=
  match x with
  | IName s => s =? p
  | IEntry _ => false
  end.

(** The driver's [ls]: names, or (detail) the entries. *)
Definition listed (detail : bool) : Type :=
  if detail then list Entry else list string.

(** The driver's [find]: names, or (detail) a dict from name to entry. *)
Definition found (detail : bool) : Type :=
  if detail then list (string * Entry) else list string.

(** An open stream; [io_blocksize] is [getattr(f, "blocksize", None)]. *)
Record IO : Type := mkIO {
  io_id : nat;
  io_path : string;
  io_mode : string;
  io_blocksize : option Z
}.

(** ** The collaborators *)

(** [self.path]: the path helper of the filesystem class. *)
Record PathHelper : Type := mkPathHelper {
  parent : string -> string;
  parts : string -> list string
}.

(** The progress callback: [set_size] and [relative_update]. *)
Record Callback (St : Type) : Type := mkCallback {
  set_size : Z -> M St unit;
  relative_update : Z -> M St unit
}.
Arguments set_size {St} _ _ _.
Arguments relative_update {St} _ _ _.

(** [self.fs]: the fsspec driver.  [fs_write] and [fs_close] are the
    [write] and [close] of a stream that [fs_open] returned. *)
Record Driver (St : Type) : Type := mkDriver {
  fs_isdir : string -> M St bool;
  fs_info : string -> M St Entry;
  fs_exists : string -> M St bool;
  fs_ls : string -> forall detail : bool, M St (listed detail);
  fs_find : string -> forall detail : bool, option string -> M St (found detail);
  fs_open : string -> string -> M St IO;
  fs_write : IO -> list Byte.byte -> M St unit;
  fs_close : IO -> M St unit;
  fs_checksum : string -> M St string;
  fs_copy : string -> string -> M St unit;
  fs_move : string -> string -> M St unit;
  fs_rm_file : string -> M St unit;
  fs_makedirs : string -> bool -> M St unit;
  fs_put_file : string -> string -> Callback St -> kwargs -> M St unit;
  fs_get_file : string -> string -> Callback St -> kwargs -> M St unit;
  fs_invalidate_cache : string -> M St unit
}.
Arguments fs_isdir {St} _ _ _.
Arguments fs_info {St} _ _ _.
Arguments fs_exists {St} _ _ _.
Arguments fs_ls {St} _ _ _ _.
Arguments fs_find {St} _ _ _ _ _.
Arguments fs_open {St} _ _ _ _.
Arguments fs_write {St} _ _ _ _.
Arguments fs_close {St} _ _ _.
Arguments fs_checksum {St} _ _ _.
Arguments fs_copy {St} _ _ _ _.
Arguments fs_move {St} _ _ _ _.
Arguments fs_rm_file {St} _ _ _.
Arguments fs_makedirs {St} _ _ _ _.
Arguments fs_put_file {St} _ _ _ _ _ _.
Arguments fs_get_file {St} _ _ _ _ _ _.
Arguments fs_invalidate_cache {St} _ _ _.

(** The local disk that [put_file] reads from. *)
Definition LocalDisk : Type := string -> option (list Byte.byte).

(** The class of an instance decides which override a call reaches. *)
Inductive pyclass : Type :=
| cls_FSSpecWrapper
| cls_ObjectFSWrapper.

Record Instance (St : Type) : Type := mkInstance {
  cls : pyclass;
  path : PathHelper;
  fs : Driver St
}.
Arguments cls {St} _.
Arguments path {St} _.
Arguments fs {St} _.

(** ** Helpers from the Python standard library *)

(** [t[-1]] on a tuple. *)
Definition index_last {St A} (t : list A) : M St A :=
  match rev t with
  | [] => raise IndexError
  | x :: _ => ret x
  end.

(** Reading a local variable that may not have been assigned yet. *)
Definition load_local {St A} (name : string) (v : option A) : M St A :=
  match v with
  | Some x => ret x
  | None => raise (UnboundLocalError name)
  end.

Definition size_is_zero (sz : option Z) : bool :=
  match sz with
  | Some z => (z =? 0)%Z
  | None => false
  end.

(** [shutil.COPY_BUFSIZE] on POSIX. *)
Definition COPY_BUFSIZE : nat := Z.to_nat 65536.

(** The number of bytes one [read(length)] of [copyfileobj] asks for:
    a missing or zero length falls back to [COPY_BUFSIZE], a negative one
    reads to the end. *)
Definition read_length (length : option Z) (data : list Byte.byte) : nat :=
  match length with
  | None => COPY_BUFSIZE
  | Some z => if (z =? 0)%Z then COPY_BUFSIZE
              else if (z <? 0)%Z then List.length data
              else Z.to_nat z
  end.

Fixpoint chunks_fuel (fuel n : nat) (data : list Byte.byte) : list (list Byte.byte) :=
  match fuel with
  | O => []
  | S f => match data with
           | [] => []
           | _ => firstn n data :: chunks_fuel f n (skipn n data)
           end
  end.

(** The successive non-empty reads of [n] bytes over [data]. *)
Definition chunks (n : nat) (data : list Byte.byte) : list (list Byte.byte) :=
  chunks_fuel (List.length data) n data.

(** A readable stream: its bytes and what each [read] reports, which is
    nothing for a plain file and [callback(len(data))] under
    [CallbackIOWrapper]. *)
Record Source (St : Type) : Type := mkSource {
  src_data : list Byte.byte;
  src_on_read : Z -> M St unit
}.
Arguments src_data {St} _.
Arguments src_on_read {St} _ _ _.

Section Wrappers.

Context {St : Type}.
Implicit Types (self : Instance St) (path_info from_info to_info : string).

(** [shutil.copyfileobj(fsrc, fdst, length)]: read, stop at the empty
    read, write. *)
Fixpoint copy_chunks self (fsrc : Source St) (fdst : IO)
    (bufs : list (list Byte.byte)) : M St unit :=
  match bufs with
  | [] => src_on_read fsrc 0%Z
  | buf :: rest =>
      src_on_read fsrc (Z.of_nat (List.length buf)) ;;;
      fs_write (fs self) fdst buf ;;;
      copy_chunks self fsrc fdst rest
  end.

Definition copyfileobj self (fsrc : Source St) (fdst : IO) (length : option Z)
    : M St unit :=
  copy_chunks self fsrc fdst
    (chunks (read_length length (src_data fsrc)) (src_data fsrc)).

(** *** class FSSpecWrapper *)

Definition FSSpecWrapper__isdir self path_info : M St bool :=
  fs_isdir (fs self) path_info.

Definition info self path_info : M St Entry :=
  fs_info (fs self) path_info.

(** *** class ObjectFSWrapper: [_isdir] and [makedirs] *)

Definition ObjectFSWrapper__isdir self path_info : M St bool :=
  entry <- info self path_info ;;
  ret ((e_type entry =? "directory")
       || (size_is_zero (e_size entry)
           && (e_type entry =? "file")
           && endswith (e_name entry) "/")).

Definition ObjectFSWrapper_makedirs self path_info (kw : kwargs) : M St unit :=
  ret tt.

Definition FSSpecWrapper_makedirs self path_info (kw : kwargs) : M St unit :=
  fs_makedirs (fs self) path_info (truthy (kw_pop "exist_ok" (PyBool true) kw)).

(** [self._isdir] and [self.makedirs] as the instance's class resolves them. *)
Definition _isdir self path_info : M St bool :=
  match cls self with
  | cls_FSSpecWrapper => FSSpecWrapper__isdir self path_info
  | cls_ObjectFSWrapper => ObjectFSWrapper__isdir self path_info
  end.

Definition makedirs self path_info (kw : kwargs) : M St unit :=
  match cls self with
  | cls_FSSpecWrapper => FSSpecWrapper_makedirs self path_info kw
  | cls_ObjectFSWrapper => ObjectFSWrapper_makedirs self path_info kw
  end.

(** *** The methods every wrapper inherits from FSSpecWrapper *)

Definition isdir self path_info : M St bool :=
  try_except_FileNotFoundError (_isdir self path_info) (ret false).

Definition isfile self path_info : M St bool :=
  try_except_FileNotFoundError
    (b <- _isdir self path_info ;; ret (negb b))
    (ret false).

Definition is_empty self path_info : M St bool :=
  entry <- info self path_info ;;
  if e_type entry =? "directory"
  then l <- fs_ls (fs self) path_info true ;;
       ret (match l with [] => true | _ => false end)
  else ret (size_is_zero (e_size entry)).

Definition open_ self path_info (mode : string) (encoding : option string)
    (kw : kwargs) : M St IO :=
  fs_open (fs self) path_info mode.


Definition copy self from_info to_info : M St unit :=
  makedirs self (parent (path self) to_info) [] ;;;
  fs_copy (fs self) from_info to_info.

Definition exists_ self path_info : M St bool :=
  fs_exists (fs self) path_info.

(** The generators [ls] and [find] are modelled by the sequence they
    yield when run to the end; an exception of the body surfaces at the
    first step of the iteration. *)
Definition listed_items (detail : bool) : listed detail -> list item :=
  match detail with
  | true => fun l => map IEntry l
  | false => fun l => map IName l
  end.

Definition ls self path_info (detail : bool) : M St (list item) :=
  l <- fs_ls (fs self) path_info detail ;;
  ret (listed_items detail l).

(** [yield from d] over the dict of a detailed [find] yields its keys. *)
Definition found_keys (detail : bool) : found detail -> list item :=
  match detail with
  | true => fun d => map (fun kv => IName (fst kv)) d
  | false => fun l => map IName l
  end.

Definition FSSpecWrapper_find self path_info (detail : bool)
    (prefix : option bool) : M St (list item) :=
  files <- fs_find (fs self) path_info detail None ;;
  ret (found_keys detail files).



Definition put_file self (from_file : string) to_info (callback : Callback St)
    (kw : kwargs) : M St unit :=
  fs_put_file (fs self) from_file to_info callback kw ;;;
  fs_invalidate_cache (fs self) (parent (path self) to_info).


Definition upload_fobj self (fobj : Source St) to_info (kw : kwargs) : M St unit :=
  makedirs self (parent (path self) to_info) [] ;;;
  fdest <- open_ self to_info "wb" None [] ;;
  with_ (fs_close (fs self) fdest)
        (copyfileobj self fobj fdest (io_blocksize fdest)).

(** *** class ObjectFSWrapper: [find] *)

(** [if detail: files = list(files.values())] *)
Definition found_values (detail : bool) : found detail -> list item :=
  match detail with
  | true => fun d => map (fun kv => IEntry (snd kv)) d
  | false => fun l => map IName l
  end.

Definition is_truthy_opt (prefix : option bool) : bool :=
  match prefix with
  | Some b => b
  | None => false
  end.

(** The local [path] is assigned in the [if prefix:] branch only; it is
    read by the single-entry test, after [len(files) == 1] held. *)
Definition ObjectFSWrapper_find self path_info (detail : bool)
    (prefix : option bool) : M St (list item) :=
  bound <- (if is_truthy_opt prefix
            then let path_ := parent (path self) path_info in
                 seg <- index_last (parts (path self) path_info) ;;
                 files <- fs_find (fs self) path_ detail (Some seg) ;;
                 ret (Some path_, files)
            else files <- fs_find (fs self) path_info detail None ;;
                 ret (None, files)) ;;
  let path_ : option string := fst bound in
  let files := found_values detail (snd bound) in
  skip <- (match files with
           | [first] =>
               p <- load_local "path" path_ ;;
               if item_eq_str first p then isdir self path_info else ret false
           | _ => ret false
           end) ;;
  if skip then ret [] else ret files.

Definition find self path_info (detail : bool) (prefix : option bool)
    : M St (list item) :=
  match cls self with
  | cls_FSSpecWrapper => FSSpecWrapper_find self path_info detail prefix
  | cls_ObjectFSWrapper => ObjectFSWrapper_find self path_info detail prefix
  end.

(** *** class NoDirectoriesMixin *)

Definition NoDirectoriesMixin_isdir self (args : list pyval) (kw : kwargs)
    : M St bool := ret false.

Definition NoDirectoriesMixin_isfile self (args : list pyval) (kw : kwargs)
    : M St bool := ret true.

Definition NoDirectoriesMixin_find self (args : list pyval) (kw : kwargs)
    : M St (list item) := raise NotImplementedError.

Definition NoDirectoriesMixin_walk self (args : list pyval) (kw : kwargs)
    : M St (list item) := raise NotImplementedError.

Definition NoDirectoriesMixin_ls self (args : list pyval) (kw : kwargs)
    : M St (list item) := raise NotImplementedError.

(** *** class CallbackMixin *)

Definition os_path_getsize (disk : LocalDisk) (file : string) : M St Z :=
  match disk file with
  | Some data => ret (Z.of_nat (List.length data))
  | None => raise FileNotFoundError
  end.

(** [open(file, "rb")] on the local disk. *)
Definition open_rb (disk : LocalDisk) (file : string) : M St (list Byte.byte) :=
  match disk file with
  | Some data => ret data
  | None => raise FileNotFoundError
  end.

Definition CallbackMixin_put_file self (disk : LocalDisk) (from_file : string)
    to_info (callback : Callback St) (kw : kwargs) : M St unit :=
  makedirs self (parent (path self) to_info) [] ;;;
  size <- os_path_getsize disk from_file ;;
  fobj <- open_rb disk from_file ;;
  with_ (ret tt)
        (set_size callback size ;;;
         let wrapped := mkSource St fobj (relative_update callback) in
         upload_fobj self wrapped to_info [] ;;;
         fs_invalidate_cache (fs self) (parent (path self) to_info)).

End Wrappers.

(** ** A POSIX path helper *)

Module PosixPath.

Definition is_slash (c : ascii) : bool := Ascii.eqb c "/"%char.

Fixpoint take_while (f : ascii -> bool) (l : list ascii) : list ascii :=
  match l with
  | [] => []
  | c :: rest => if f c then c :: take_while f rest else []
  end.

Fixpoint drop_while (f : ascii -> bool) (l : list ascii) : list ascii :=
  match l with
  | [] => []
  | c :: rest => if f c then drop_while f rest else l
  end.

(** [posixpath.split]: the head keeps no trailing slash unless it is
    made of slashes only. *)
Definition split (p : string) : string * string :=
  let r := rev (list_ascii_of_string p) in
  let tail_r := take_while (fun c => negb (is_slash c)) r in
  let head_r := drop_while (fun c => negb (is_slash c)) r in
  let head_r' := if forallb is_slash head_r then head_r
                 else drop_while is_slash head_r in
  (string_of_list_ascii (rev head_r'), string_of_list_ascii (rev tail_r)).

Definition dirname (p : string) : string := fst (split p).

Fixpoint parts_fuel (fuel : nat) (p : string) (acc : list string) : list string :=
  match fuel with
  | O => acc
  | S f =>
      let (head, tail) := split p in
      if negb (tail =? "") then parts_fuel f head (tail :: acc)
      else if negb (head =? "") then head :: acc
      else acc
  end.

(** Modelled from the spec: the Path Helper ("pure functions for
    parent/child/segment decomposition"); [dvc/fs/path.py] is not among
    the sources.  [parent] is [dirname], [parts] peels [split] until
    nothing is left. *)
Definition helper : PathHelper :=
  mkPathHelper dirname (fun p => parts_fuel (S (String.length p)) p []).

End PosixPath.

(** ** An in-memory driver *)

Module MemFS.

Inductive progress_event : Type :=
| SetSize (total : Z)
| RelativeUpdate (delta : Z).

Record World : Type := mkWorld {
  flat : bool;                               (* keys need no directory *)
  objects : list (string * list Byte.byte);  (* key and content *)
  dirs : list string;                        (* directories made *)
  dircache : list (string * list string);    (* cached listings *)
  streams : list (nat * list Byte.byte);     (* open write buffers *)
  next_id : nat;
  blocksize : option Z;
  progress : list progress_event             (* what the callback saw *)
}.

Definition set_objects (w : World) (o : list (string * list Byte.byte)) : World :=
  mkWorld (flat w) o (dirs w) (dircache w) (streams w) (next_id w)
          (blocksize w) (progress w).

Definition set_dirs (w : World) (d : list string) : World :=
  mkWorld (flat w) (objects w) d (dircache w) (streams w) (next_id w)
          (blocksize w) (progress w).

Definition set_dircache (w : World) (c : list (string * list string)) : World :=
  mkWorld (flat w) (objects w) (dirs w) c (streams w) (next_id w)
          (blocksize w) (progress w).

Definition set_streams (w : World) (st : list (nat * list Byte.byte)) (n : nat)
    : World :=
  mkWorld (flat w) (objects w) (dirs w) (dircache w) st n
          (blocksize w) (progress w).

Definition add_progress (w : World) (e : progress_event) : World :=
  mkWorld (flat w) (objects w) (dirs w) (dircache w) (streams w) (next_id w)
          (blocksize w) (progress w ++ [e])%list.

Fixpoint lookup {A} (k : string) (l : list (string * A)) : option A :=
  match l with
  | [] => None
  | (k', v) :: rest => if k' =? k then Some v else lookup k rest
  end.

(** [d[k] = v]: in place when the key is there, at the end otherwise. *)
Fixpoint store {A} (k : string) (v : A) (l : list (string * A)) : list (string * A) :=
  match l with
  | [] => [(k, v)]
  | (k', v') :: rest => if k' =? k then (k, v) :: rest
                        else (k', v') :: store k v rest
  end.

Definition delete {A} (k : string) (l : list (string * A)) : list (string * A) :=
  filter (fun kv => negb (fst kv =? k)) l.

Fixpoint lookup_stream (n : nat) (l : list (nat * list Byte.byte))
    : option (list Byte.byte) :=
  match l with
  | [] => None
  | (n', v) :: rest => if Nat.eqb n' n then Some v else lookup_stream n rest
  end.

Definition keys (w : World) : list string := map fst (objects w).

(** A directory was made, or something lives under the path. *)
Definition is_dir (w : World) (p : string) : bool :=
  existsb (fun d => d =? p) (dirs w)
  || existsb (fun k => startswith k (p ++ "/")) (keys w ++ dirs w)%list.

(** What the backend really holds right under [q]. *)
Definition children (w : World) (q : string) : list string :=
  filter (fun k => PosixPath.dirname k =? q) (keys w ++ dirs w)%list.

Definition file_entry (k : string) (data : list Byte.byte) : Entry :=
  mkEntry k "file" (Some (Z.of_nat (List.length data))) [].

Definition dir_entry (k : string) : Entry := mkEntry k "directory" None [].

Definition mem_info (p : string) : M World Entry :=
  fun w => match lookup p (objects w) with
           | Some data => (Ok (file_entry p data), w)
           | None =>
               match lookup (p ++ "/") (objects w) with
               | Some data => (Ok (file_entry (p ++ "/") data), w)
               | None => if is_dir w p then (Ok (dir_entry p), w)
                         else (Raise FileNotFoundError, w)
               end
           end.

Definition mem_isdir (p : string) : M World bool :=
  entry <- mem_info p ;; ret (e_type entry =? "directory").

Definition mem_exists (p : string) : M World bool :=
  try_except_FileNotFoundError (mem_info p ;;; ret true) (ret false).

Definition entry_of (w : World) (k : string) : Entry :=
  match lookup k (objects w) with
  | Some data => file_entry k data
  | None => dir_entry k
  end.

(** A listing is served from the cache when it is there, and is cached
    when it was computed. *)
Definition mem_ls_names (q : string) : M World (list string) :=
  fun w => match lookup q (dircache w) with
           | Some names => (Ok names, w)
           | None => let names := children w q in
                     (Ok names, set_dircache w (store q names (dircache w)))
           end.

Definition mem_ls (q : string) (detail : bool) : M World (listed detail) :=
  match detail with
  | true => fun w => match mem_ls_names q w with
                     | (Ok names, w1) => (Ok (map (entry_of w1) names), w1)
                     | (Raise e, w1) => (Raise e, w1)
                     end
  | false => mem_ls_names q
  end.

(** The key prefix that selects what lies under [q]. *)
Definition under (q : string) : string :=
  if q =? "" then ""
  else if forallb PosixPath.is_slash (list_ascii_of_string q) then q
  else q ++ "/".

Definition find_names (w : World) (q : string) (pre : option string) : list string :=
  let stem := under q ++ match pre with Some x => x | None => "" end in
  filter (fun k => (k =? q) || startswith k stem) (keys w).

Definition mem_find (q : string) (detail : bool) (pre : option string)
    : M World (found detail) :=
  match detail with
  | true => fun w => (Ok (map (fun k => (k, entry_of w k)) (find_names w q pre)), w)
  | false => fun w => (Ok (find_names w q pre), w)
  end.

Definition mem_open (p mode : string) : M World IO :=
  fun w =>
    if mode =? "wb"
    then (Ok (mkIO (next_id w) p mode (blocksize w)),
          set_streams w ((next_id w, []) :: streams w) (S (next_id w)))
    else match lookup p (objects w) with
         | Some _ => (Ok (mkIO (next_id w) p mode (blocksize w)),
                      set_streams w (streams w) (S (next_id w)))
         | None => (Raise FileNotFoundError, w)
         end.

Definition mem_write (h : IO) (buf : list Byte.byte) : M World unit :=
  fun w => match lookup_stream (io_id h) (streams w) with
           | Some data =>
               (Ok tt, set_streams w
                         ((io_id h, (data ++ buf)%list)
                          :: filter (fun s => negb (Nat.eqb (fst s) (io_id h)))
                               (streams w))
                         (next_id w))
           | None => (Raise ValueError, w)
           end.

(** Closing a write stream commits its buffer as the object. *)
Definition mem_close (h : IO) : M World unit :=
  fun w =>
    if io_mode h =? "wb"
    then match lookup_stream (io_id h) (streams w) with
         | Some data =>
             (Ok tt, set_objects
                       (set_streams w
                          (filter (fun s => negb (Nat.eqb (fst s) (io_id h)))
                             (streams w))
                          (next_id w))
                       (store (io_path h) data (objects w)))
         | None => (Raise ValueError, w)
         end
    else (Ok tt, w).

Definition mem_checksum (p : string) : M World string :=
  fun w => match lookup p (objects w) with
           | Some data => (Ok (string_of_list_byte data), w)
           | None => (Raise FileNotFoundError, w)
           end.

(** A key can be written when the store is flat, at the top level, or
    under a directory. *)
Definition writable (w : World) (dst : string) : bool :=
  flat w || (PosixPath.dirname dst =? "") || is_dir w (PosixPath.dirname dst).

Definition mem_copy (src dst : string) : M World unit :=
  fun w => match lookup src (objects w) with
           | Some data => if writable w dst
                          then (Ok tt, set_objects w (store dst data (objects w)))
                          else (Raise FileNotFoundError, w)
           | None => (Raise FileNotFoundError, w)
           end.

Definition mem_rm_file (p : string) : M World unit :=
  fun w => match lookup p (objects w) with
           | Some _ => (Ok tt, set_objects w (delete p (objects w)))
           | None => (Raise FileNotFoundError, w)
           end.

Definition mem_move (src dst : string) : M World unit :=
  mem_copy src dst ;;; mem_rm_file src.

Definition mem_makedirs (p : string) (exist_ok : bool) : M World unit :=
  fun w => if is_dir w p
           then (if exist_ok then (Ok tt, w) else (Raise FileExistsError, w))
           else match lookup p (objects w) with
                | Some _ => (Raise FileExistsError, w)
                | None => (Ok tt, set_dirs w (dirs w ++ [p])%list)
                end.

(** The upload itself leaves the cached listings as they are. *)
Definition mem_put_file (disk : LocalDisk) (local dst : string)
    (callback : Callback World) (kw : kwargs) : M World unit :=
  match disk local with
  | Some data =>
      fun w => if writable w dst
               then (set_size callback (Z.of_nat (List.length data)) ;;;
                     relative_update callback (Z.of_nat (List.length data)) ;;;
                     (fun w1 => (Ok tt, set_objects w1 (store dst data (objects w1))))) w
               else (Raise FileNotFoundError, w)
  | None => raise FileNotFoundError
  end.

Definition mem_get_file (src local : string) (callback : Callback World)
    (kw : kwargs) : M World unit :=
  fun w => match lookup src (objects w) with
           | Some data =>
               (set_size callback (Z.of_nat (List.length data)) ;;;
                relative_update callback (Z.of_nat (List.length data))) w
           | None => (Raise FileNotFoundError, w)
           end.

Definition mem_invalidate_cache (q : string) : M World unit :=
  fun w => (Ok tt, set_dircache w (delete q (dircache w))).

(** Modelled from the spec: the Driver, an external collaborator ("per-backend
    client exposing primitive operations"), here an in-memory store with a
    listing cache that uploads do not refresh. *)
Definition driver (disk : LocalDisk) : Driver World :=
  mkDriver World mem_isdir mem_info mem_exists mem_ls mem_find mem_open
           mem_write mem_close mem_checksum mem_copy mem_move mem_rm_file
           mem_makedirs (mem_put_file disk) mem_get_file mem_invalidate_cache.

(** A callback that records what it is told. *)
Definition recorder : Callback World :=
  mkCallback World
    (fun z w => (Ok tt, add_progress w (SetSize z)))
    (fun z w => (Ok tt, add_progress w (RelativeUpdate z))).

Definition no_disk : LocalDisk := fun _ => None.

Definition hierarchical (disk : LocalDisk) : Instance World :=
  mkInstance World cls_FSSpecWrapper PosixPath.helper (driver disk).

Definition object_store (disk : LocalDisk) : Instance World :=
  mkInstance World cls_ObjectFSWrapper PosixPath.helper (driver disk).

(** What a world holds: a directory, a file, a key. *)
Definition holds_dir (w : World) (p : string) : Prop := is_dir w p = true.

Definition holds_file (w : World) (f : string) : Prop := lookup f (objects w) <> None.

Definition holds_key (w : World) (k : string) : Prop := In k (keys w).

End MemFS.

(** ** Sample backends *)

Module Examples.

Import MemFS.

Definition bytes (s : string) : list Byte.byte := list_byte_of_string s.

(** A flat bucket: three objects under [a], one object under [data], and
    the zero-byte marker of the empty directory [foo]. *)
Definition bucket : World :=
  mkWorld true
    [("a/bar", bytes "1"); ("a/baz", bytes "22"); ("a/qux", bytes "333");
     ("data/file", bytes "4444"); ("foo/", [])]
    [] [] [] 0 (Some 2%Z) [].

(** A hierarchical tree with one file at the top and no directory yet. *)
Definition tree : World :=
  mkWorld false [("src.txt", bytes "abc")] [] [] [] 0 None [].

(** The local disk: one file of five bytes. *)
Definition disk : LocalDisk :=
  fun f => if f =? "local.bin" then Some (bytes "hello") else None.

(** The bucket once the listing of [a] has been served and cached. *)
Definition bucket_listed : World :=
  snd (ls (object_store disk) "a" false bucket).

(** The cached bucket after an upload of the local file to [a/new], by
    the wrapper's [put_file] and by the callback mixin's. *)
Definition uploaded : World :=
  snd (put_file (object_store disk) "local.bin" "a/new" recorder [] bucket_listed).

Definition uploaded_by_mixin : World :=
  snd (CallbackMixin_put_file (object_store disk) disk "local.bin" "a/new"
         recorder [] bucket_listed).

End Examples.

(** ** Notions used in the statements *)


(** The driver call behind [_isdir] raises [e]: the directory check of a
    hierarchical driver, the stat of an object store. *)
Definition check_raises {St} (self : Instance St) (p : string) (e : exn)
    (s s' : St) : Prop :=
  match cls self with
  | cls_FSSpecWrapper => fs_isdir (fs self) p s = (Raise e, s')
  | cls_ObjectFSWrapper => fs_info (fs self) p s = (Raise e, s')
  end.

(** The path does not exist: the driver's check answers not-found. *)
Definition reports_missing {St} (self : Instance St) (p : string) (s s' : St)
    : Prop :=
  check_raises self p FileNotFoundError s s'.

(** The name ends in the path separator. *)
Definition ends_with_separator (name : string) : Prop :=
  exists stem, name = stem ++ "/".


(** An instance of the hierarchical class over a helper and a driver. *)
Definition hierarchical_wrapper {St} (helper : PathHelper) (driver : Driver St)
    : Instance St :=
  mkInstance St cls_FSSpecWrapper helper driver.

(** The single-entry test of the object-store [find]: the result is one
    item and it equals [q]. *)
Definition single_self (files : list item) (q : string) : bool :=
  match files with
  | [first] => item_eq_str first q
  | _ => false
  end.

(** Modelled from the spec: the contract of the driver's [makedirs], an
    external collaborator: with existOk it "ensures path exists as a
    directory; no-op if already exists".  [is_directory] says which paths
    the backend holds as directories in a state. *)
Record MakedirsContract {St} (d : Driver St)
    (is_directory : St -> string -> Prop) : Prop := {
  makedirs_ensures : forall p s s',
    fs_makedirs d p true s = (Ok tt, s') -> is_directory s' p;
  makedirs_noop : forall p s,
    is_directory s p -> fs_makedirs d p true s = (Ok tt, s)
}.

(** Modelled from the spec: the contract of a hierarchical driver, an
    external collaborator.  Beyond the makedirs contract, a directory can
    be made where nothing is in the way, making one keeps the files, and
    [copy] succeeds from an existing file into an existing directory.
    [is_file] says which paths the backend holds as files in a state. *)
Record HierarchicalContract {St} (helper : PathHelper) (d : Driver St)
    (is_directory is_file : St -> string -> Prop) : Prop := {
  makedirs_contract : MakedirsContract d is_directory;
  makedirs_creates : forall p s,
    ~ is_directory s p -> ~ is_file s p ->
    exists s', fs_makedirs d p true s = (Ok tt, s');
  makedirs_keeps_files : forall p s s' f,
    fs_makedirs d p true s = (Ok tt, s') -> is_file s f -> is_file s' f;
  copy_succeeds : forall src dst s,
    is_file s src -> is_directory s (parent helper dst) ->
    exists s', fs_copy d src dst s = (Ok tt, s') /\ is_file s' dst
}.

(** Modelled from the spec: the contract of a driver that caches
    listings, an external collaborator.  An upload and the close of a
    write stream store the object; invalidating a directory keeps the
    objects and makes the next [ls] and [find] of that directory read the
    backend, so they show every object stored right under it.  [stored]
    says which keys the backend holds in a state. *)
Record CacheContract {St} (helper : PathHelper) (d : Driver St)
    (stored : St -> string -> Prop) : Prop := {
  put_file_stores : forall local dst cb kw s s',
    fs_put_file d local dst cb kw s = (Ok tt, s') -> stored s' dst;
  open_handle : forall p mode s h s',
    fs_open d p mode s = (Ok h, s') -> io_path h = p /\ io_mode h = mode;
  close_stores : forall h s s',
    fs_close d h s = (Ok tt, s') -> io_mode h = "wb" -> stored s' (io_path h);
  invalidate_keeps : forall q s s' k,
    fs_invalidate_cache d q s = (Ok tt, s') -> stored s k -> stored s' k;
  ls_fresh : forall q s0 s,
    fs_invalidate_cache d q s0 = (Ok tt, s) ->
    exists names s', fs_ls d q false s = (Ok names, s')
                     /\ forall k, stored s k -> parent helper k = q -> In k names;
  find_fresh : forall q s0 s,
    fs_invalidate_cache d q s0 = (Ok tt, s) ->
    exists names s', fs_find d q false None s = (Ok names, s')
                     /\ forall k, stored s k -> parent helper k = q -> In k names
}.

(** ** Construction of a wrapper *)

(** [d.pop(k, None)]: the dict that is left. *)
Definition kw_remove (k : string) (d : kwargs) : kwargs :=
  filter (fun kv => negb (fst kv =? k)) d.

(** [d[k] = v]: in place when the key is there, at the end otherwise. *)
Fixpoint kw_set (k : string) (v : pyval) (d : kwargs) : kwargs :=
  match d with
  | [] => [(k, v)]
  | (k', v') :: rest => if k' =? k then (k, v) :: rest
                        else (k', v') :: kw_set k v rest
  end.

(** [d.update(other)] *)
Definition kw_update (d other : kwargs) : kwargs :=
  fold_left (fun acc kv => kw_set (fst kv) (snd kv) acc) other d.

(** [FSSpecWrapper._prepare_credentials]: no argument by default. *)
Definition _prepare_credentials (config : kwargs) : kwargs := [].

(** The [fs_args] that [FSSpecWrapper.__init__] leaves on the instance;
    [prepare] is the [_prepare_credentials] of the instance's class. *)
Definition init_fs_args (prepare : kwargs -> kwargs) (kw : kwargs) : kwargs :=
  kw_update [("skip_instance_cache", PyBool true)] (prepare kw).

(** [FSSpecWrapper._get_kwargs_from_urls]; [infer_storage_options] is
    fsspec's parser of the URL. *)
Definition _get_kwargs_from_urls (infer_storage_options : string -> kwargs)
    (urlpath : string) : kwargs :=
  kw_remove "protocol" (kw_remove "path" (infer_storage_options urlpath)).

(** ** Further notions used in the statements *)

(** The outcome is a raised FileNotFoundError. *)
Definition raises_not_found {A} (r : result A) : bool :=
  match r with
  | Raise FileNotFoundError => true
  | _ => false
  end.

(** Every item is a name. *)
Definition is_name (x : item) : bool :=
  match x with
  | IName _ => true
  | IEntry _ => false
  end.

(** The driver with another [makedirs]. *)
Definition with_makedirs {St} (d : Driver St)
    (f : string -> bool -> M St unit) : Driver St :=
  mkDriver St (fs_isdir d) (fs_info d) (fs_exists d) (fs_ls d) (fs_find d)
           (fs_open d) (fs_write d) (fs_close d) (fs_checksum d) (fs_copy d)
           (fs_move d) (fs_rm_file d) f (fs_put_file d) (fs_get_file d)
           (fs_invalidate_cache d).

(** The driver with another [isdir]. *)
Definition with_isdir {St} (d : Driver St) (f : string -> M St bool) : Driver St :=
  mkDriver St f (fs_info d) (fs_exists d) (fs_ls d) (fs_find d)
           (fs_open d) (fs_write d) (fs_close d) (fs_checksum d) (fs_copy d)
           (fs_move d) (fs_rm_file d) (fs_makedirs d) (fs_put_file d)
           (fs_get_file d) (fs_invalidate_cache d).


(** A counter of reported progress: [relative_update] adds its delta to
    it, and neither [set_size] nor the driver calls of an upload move it. *)
Record ProgressCounter {St} (d : Driver St) (cb : Callback St)
    (reported : St -> Z) : Prop := {
  update_adds : forall z s s',
    relative_update cb z s = (Ok tt, s') -> reported s' = (reported s + z)%Z;
  set_size_keeps : forall z s s',
    set_size cb z s = (Ok tt, s') -> reported s' = reported s;
  makedirs_keeps : forall p ok s s',
    fs_makedirs d p ok s = (Ok tt, s') -> reported s' = reported s;
  open_keeps : forall p mode h s s',
    fs_open d p mode s = (Ok h, s') -> reported s' = reported s;
  write_keeps : forall h buf s s',
    fs_write d h buf s = (Ok tt, s') -> reported s' = reported s;
  close_keeps : forall h s s',
    fs_close d h s = (Ok tt, s') -> reported s' = reported s;
  invalidate_keeps_count : forall q s s',
    fs_invalidate_cache d q s = (Ok tt, s') -> reported s' = reported s
}.

(** What a stream has been given so far: nothing when it was just opened
    for writing, one more buffer after each [write], and the same after a
    read of the source. *)
Record StreamContents {St} (d : Driver St) (on_read : Z -> M St unit)
    (written : St -> IO -> list Byte.byte) : Prop := {
  open_fresh : forall p h s s',
    fs_open d p "wb" s = (Ok h, s') -> written s' h = [];
  write_appends : forall h buf s s',
    fs_write d h buf s = (Ok tt, s') -> written s' h = (written s h ++ buf)%list;
  read_keeps : forall z h s s',
    on_read z s = (Ok tt, s') -> written s' h = written s h
}.

(** The sum of the deltas that the recording callback was given. *)
Fixpoint sum_updates (events : list MemFS.progress_event) : Z :=
  match events with
  | [] => 0%Z
  | MemFS.SetSize _ :: rest => sum_updates rest
  | MemFS.RelativeUpdate z :: rest => (z + sum_updates rest)%Z
  end.

Definition mem_reported (w : MemFS.World) : Z := sum_updates (MemFS.progress w).

(** The buffer of an open stream of the in-memory driver. *)
Definition mem_written (w : MemFS.World) (h : IO) : list Byte.byte :=
  match MemFS.lookup_stream (io_id h) (MemFS.streams w) with
  | Some data => data
  | None => []
  end.

(** A source whose every read fails. *)
Definition broken_source : Source MemFS.World :=
  mkSource MemFS.World (Examples.bytes "hello")
           (fun _ => raise (OtherError "read failed")).

(** A source of five bytes whose reads go to the recording callback. *)
Definition hello_source : Source MemFS.World :=
  mkSource MemFS.World (Examples.bytes "hello")
           (relative_update MemFS.recorder).

(** The sample bucket after the five bytes were uploaded to [a/new]. *)
Definition uploaded_stream : MemFS.World :=
  snd (upload_fobj (MemFS.object_store Examples.disk) hello_source "a/new" []
         Examples.bucket).

(** A credentials hook that sets two arguments of the driver. *)
Definition sample_credentials (config : kwargs) : kwargs :=
  [("token", kw_pop "token" PyNone config); ("skip_instance_cache", PyBool false)].

(** The exception an outcome raised, if any. *)
Definition raised {A} (r : result A) : option exn :=
  match r with
  | Raise e => Some e
  | Ok _ => None
  end.

(** The same, a FileNotFoundError left out. *)
Definition without_not_found (o : option exn) : option exn :=
  match o with
  | Some FileNotFoundError => None
  | other => other
  end.

(** Modelled from the spec: the Driver is an external collaborator; this
    directory check is the one of fsspec's AbstractFileSystem, which
    answers from the type of the [info] entry and answers False where
    [info] raises. *)
Definition fsspec_isdir (p : string) : M MemFS.World bool :=
  try_except_FileNotFoundError (MemFS.mem_isdir p) (ret false).

(** The hierarchical wrapper over the in-memory driver with that check. *)
Definition hierarchical_fsspec : Instance MemFS.World :=
  mkInstance MemFS.World cls_FSSpecWrapper PosixPath.helper
             (with_isdir (MemFS.driver MemFS.no_disk) fsspec_isdir).

(** The sample bucket after an upload of the local file to [fresh/x],
    under a prefix that held nothing. *)
Definition uploaded_fresh : MemFS.World :=
  snd (put_file (MemFS.object_store Examples.disk) "local.bin" "fresh/x"
         MemFS.recorder [] Examples.bucket).

(** * Properties *)

(** ** Running a sequence of calls *)

Section Sequencing.

Context {St : Type}.

Lemma bind_ok {A B} (m : M St A) (k : A -> M St B) s a s1 :
  m s = (Ok a, s1) -> bind m k s = k a s1.
Proof. intros H. unfold bind. now rewrite H. Qed.

Lemma bind_raise {A B} (m : M St A) (k : A -> M St B) s e s1 :
  m s = (Raise e, s1) -> bind m k s = (Raise e, s1).
Proof. intros H. unfold bind. now rewrite H. Qed.

Lemma bind_ok_inv {A B} (m : M St A) (k : A -> M St B) s b s' :
  bind m k s = (Ok b, s') ->
  exists a s1, m s = (Ok a, s1) /\ k a s1 = (Ok b, s').
Proof.
  unfold bind. destruct (m s) as [[a | e] s1]; intros H.
  - now exists a, s1.
  - discriminate.
Qed.

Lemma with_ok_inv {A} (release : M St unit) (body : M St A) s a s' :
  with_ release body s = (Ok a, s') ->
  exists s1, body s = (Ok a, s1) /\ release s1 = (Ok tt, s').
Proof.
  unfold with_. destruct (body s) as [[a0 | e] s1].
  - destruct (release s1) as [[[] | e] s2] eqn:R; intros H; inversion H; subst.
    now exists s1.
  - destruct (release s1) as [[[] | e'] s2]; discriminate.
Qed.

Lemma try_ok {A} (body handler : M St A) s a s1 :
  body s = (Ok a, s1) -> try_except_FileNotFoundError body handler s = (Ok a, s1).
Proof. intros H. unfold try_except_FileNotFoundError. now rewrite H. Qed.

Lemma try_not_found {A} (body handler : M St A) s s1 :
  body s = (Raise FileNotFoundError, s1) ->
  try_except_FileNotFoundError body handler s = handler s1.
Proof. intros H. unfold try_except_FileNotFoundError. now rewrite H. Qed.

Lemma try_other {A} (body handler : M St A) s e s1 :
  e <> FileNotFoundError ->
  body s = (Raise e, s1) ->
  try_except_FileNotFoundError body handler s = (Raise e, s1).
Proof.
  intros Hne H. unfold try_except_FileNotFoundError. rewrite H.
  destruct e; congruence.
Qed.

End Sequencing.



(** ** Copying in chunks *)

Lemma chunks_fuel_cover (fuel n : nat) (data : list Byte.byte) :
  0 < n -> List.length data <= fuel ->
  List.concat (chunks_fuel fuel n data) = data.
Proof.
  intros Hn. revert data.
  induction fuel as [| fuel IH]; intros data Hlen; simpl.
  - destruct data; [reflexivity | simpl in Hlen; lia].
  - destruct data as [| b data]; [reflexivity |].
    cbn [List.concat]. rewrite IH.
    + apply firstn_skipn.
    + rewrite length_skipn. cbn [List.length] in *. lia.
Qed.

(** The reads of [copyfileobj] go through all of the data: the bound on
    the number of reads is never what stops them. *)
Lemma chunks_cover (length : option Z) (data : list Byte.byte) :
  List.concat (chunks (read_length length data) data) = data.
Proof.
  destruct data as [| b data]; [reflexivity |].
  apply chunks_fuel_cover; [| lia].
  unfold read_length, COPY_BUFSIZE.
  destruct length as [z |]; [| lia].
  destruct (Z.eqb_spec z 0); [lia |].
  destruct (Z.ltb_spec z 0); [simpl; lia | lia].
Qed.

(** ** Strings *)

Lemma substring_all (s : string) : substring 0 (String.length s) s = s.
Proof. induction s as [| c s IH]; simpl; [reflexivity | now rewrite IH]. Qed.

Lemma substring_past (a b : string) (m : nat) :
  substring (String.length a) m (a ++ b) = substring 0 m b.
Proof. induction a as [| c a IH]; simpl; [reflexivity | exact IH]. Qed.

Lemma length_app (a b : string) :
  String.length (a ++ b) = String.length a + String.length b.
Proof. induction a as [| c a IH]; simpl; [reflexivity | now rewrite IH]. Qed.

Lemma substring_cut (s : string) (k : nat) :
  k <= String.length s ->
  s = substring 0 k s ++ substring k (String.length s - k) s.
Proof.
  revert k. induction s as [| c s IH]; intros k Hk; simpl in *.
  - destruct k; [reflexivity | lia].
  - destruct k as [| k]; simpl.
    + now rewrite substring_all.
    + f_equal. apply IH. lia.
Qed.

(** [endswith] holds exactly of the strings that are something followed
    by the suffix. *)
Lemma endswith_spec (s suffix : string) :
  endswith s suffix = true <-> exists stem, s = stem ++ suffix.
Proof.
  unfold endswith. split.
  - destruct (Nat.leb_spec (String.length suffix) (String.length s)) as [Hle | Hlt];
      [| discriminate].
    intros H. apply String.eqb_eq in H.
    exists (substring 0 (String.length s - String.length suffix) s).
    pose proof (substring_cut s (String.length s - String.length suffix)) as C.
    replace (String.length s - (String.length s - String.length suffix))
      with (String.length suffix) in C by lia.
    rewrite H in C. apply C. lia.
  - intros [stem ->]. rewrite length_app.
    destruct (Nat.leb_spec (String.length suffix)
                (String.length stem + String.length suffix)) as [_ | Hlt]; [| lia].
    replace (String.length stem + String.length suffix - String.length suffix)
      with (String.length stem) by lia.
    rewrite substring_past, substring_all. apply String.eqb_refl.
Qed.

(** ** isdir and isfile *)

Section DirectoryTests.

Context {St : Type}.
Implicit Types (self : Instance St) (p : string).

Lemma _isdir_raises self p e s s' :
  check_raises self p e s s' -> _isdir self p s = (Raise e, s').
Proof.
  unfold check_raises, _isdir. destruct (cls self); intros H.
  - exact H.
  - unfold ObjectFSWrapper__isdir, info. now apply bind_raise.
Qed.

Lemma isdir_recovers self p s s' :
  _isdir self p s = (Raise FileNotFoundError, s') ->
  isdir self p s = (Ok false, s') /\ isfile self p s = (Ok false, s').
Proof.
  intros H. split.
  - unfold isdir. now rewrite (try_not_found _ _ _ _ H).
  - unfold isfile. erewrite try_not_found; [reflexivity |].
    now apply bind_raise.
Qed.

Lemma isdir_reraises self p e s s' :
  e <> FileNotFoundError ->
  _isdir self p s = (Raise e, s') ->
  isdir self p s = (Raise e, s') /\ isfile self p s = (Raise e, s').
Proof.
  intros Hne H. split.
  - unfold isdir. now apply try_other.
  - unfold isfile. apply try_other; [exact Hne |]. now apply bind_raise.
Qed.

Lemma isdir_returns self p b s s' :
  _isdir self p s = (Ok b, s') ->
  isdir self p s = (Ok b, s') /\ isfile self p s = (Ok (negb b), s').
Proof.
  intros H. split.
  - unfold isdir. now apply try_ok.
  - unfold isfile. apply try_ok. now rewrite (bind_ok _ _ _ _ _ H).
Qed.

(** On the hierarchical class [isfile] is the negation of whatever the
    driver's directory check returns. *)
Lemma base_isfile_negates_driver self p b s s' :
  cls self = cls_FSSpecWrapper ->
  fs_isdir (fs self) p s = (Ok b, s') ->
  isfile self p s = (Ok (negb b), s').
Proof.
  intros Hc H. apply isdir_returns. unfold _isdir. now rewrite Hc.
Qed.

(** Where the driver's check raises not-found, on either wrapper, [isdir]
    and [isfile] both return false. *)
Theorem missing_path_is_neither self p s s' :
  reports_missing self p s s' ->
  isdir self p s = (Ok false, s') /\ isfile self p s = (Ok false, s').
Proof.
  intros H. apply isdir_recovers. now apply _isdir_raises.
Qed.

Lemma size_is_zero_spec (sz : option Z) : size_is_zero sz = true <-> sz = Some 0%Z.
Proof.
  destruct sz as [z |]; simpl.
  - rewrite Z.eqb_eq. split; congruence.
  - split; discriminate.
Qed.

(** C5: on the object-store wrapper [isdir] answers true exactly when the
    entry that [info] returns has type directory, or is a zero-size file
    whose name ends in the separator. *)
Theorem object_isdir_classifies self p s entry s' :
  cls self = cls_ObjectFSWrapper ->
  fs_info (fs self) p s = (Ok entry, s') ->
  exists b, isdir self p s = (Ok b, s')
            /\ (b = true <->
                e_type entry = "directory"
                \/ (e_size entry = Some 0%Z
                    /\ e_type entry = "file"
                    /\ ends_with_separator (e_name entry))).
Proof.
  intros Hc Hinfo. eexists. split.
  - apply isdir_returns. unfold _isdir. rewrite Hc.
    unfold ObjectFSWrapper__isdir, info. rewrite (bind_ok _ _ _ _ _ Hinfo).
    reflexivity.
  - unfold ends_with_separator.
    rewrite orb_true_iff, !andb_true_iff, !String.eqb_eq,
      size_is_zero_spec, endswith_spec.
    tauto.
Qed.

End DirectoryTests.

Lemma missing_path_is_neither_witness :
  (isdir (MemFS.hierarchical MemFS.no_disk) "nope" Examples.tree
     = (Ok false, Examples.tree)
   /\ isfile (MemFS.hierarchical MemFS.no_disk) "nope" Examples.tree
     = (Ok false, Examples.tree))
  /\ (isdir (MemFS.object_store MemFS.no_disk) "nope" Examples.bucket
        = (Ok false, Examples.bucket)
      /\ isfile (MemFS.object_store MemFS.no_disk) "nope" Examples.bucket
        = (Ok false, Examples.bucket)).
Proof.
  split; apply missing_path_is_neither; vm_compute; reflexivity.
Defined.

Lemma object_isdir_classifies_witness :
  isdir (MemFS.object_store MemFS.no_disk) "foo" Examples.bucket
  = (Ok true, Examples.bucket).
Proof.
  destruct (object_isdir_classifies (MemFS.object_store MemFS.no_disk) "foo"
              Examples.bucket (MemFS.file_entry "foo/" []) Examples.bucket
              eq_refl eq_refl) as (b & Hrun & Hiff).
  assert (Hb : b = true).
  { apply Hiff. right. repeat split. now exists "foo". }
  rewrite Hrun, Hb. reflexivity.
Defined.

(** ** Which calls recover a not-found condition *)

Section Propagation.

Context {St : Type}.
Implicit Types (self : Instance St) (p q : string).




End Propagation.


(** ** find on the hierarchical wrapper *)

(** C10: the hierarchical wrapper's [find] does not read its prefix
    argument: whatever the flag, the call is the driver's full walk of the
    path, asked without a prefix. *)
Theorem base_find_ignores_prefix {St} (helper : PathHelper) (driver : Driver St)
    (p : string) (detail : bool) (prefix1 prefix2 : option bool) (s : St) :
  find (hierarchical_wrapper helper driver) p detail prefix1 s
  = find (hierarchical_wrapper helper driver) p detail prefix2 s
  /\ find (hierarchical_wrapper helper driver) p detail prefix1 s
     = match fs_find driver p detail None s with
       | (Ok files, s1) => (Ok (found_keys detail files), s1)
       | (Raise e, s1) => (Raise e, s1)
       end.
Proof.
  split; [reflexivity |].
  unfold find, FSSpecWrapper_find, bind, ret, hierarchical_wrapper; cbn [cls fs].
  now destruct (fs_find driver p detail None s) as [[files | e] s1].
Qed.

(** ** The no-directory mixin *)

(** C8: with the mixin's methods, whatever the arguments and whatever the
    driver and its state, [isdir] is false, [isfile] is true, and [find],
    [walk] and [ls] raise NotImplementedError, all of them leaving the
    state as it was. *)
Theorem no_directories_mixin {St} (self : Instance St) (args : list pyval)
    (kw : kwargs) (s : St) :
  NoDirectoriesMixin_isdir self args kw s = (Ok false, s)
  /\ NoDirectoriesMixin_isfile self args kw s = (Ok true, s)
  /\ NoDirectoriesMixin_find self args kw s = (Raise NotImplementedError, s)
  /\ NoDirectoriesMixin_walk self args kw s = (Raise NotImplementedError, s)
  /\ NoDirectoriesMixin_ls self args kw s = (Raise NotImplementedError, s).
Proof. repeat split. Qed.

(** ** find on the object-store wrapper *)

Section ObjectFind.

Context {St : Type}.
Implicit Types (self : Instance St) (p : string).

(** C1: asked without the prefix flag, the object-store [find] raises
    UnboundLocalError whenever the driver's result has exactly one entry,
    be it the file that was queried or the marker of an empty directory:
    the local [path] that the single-entry test reads was never assigned,
    so neither the one entry nor the empty sequence is yielded. *)
Theorem object_find_single_entry_unbound self p (detail : bool)
    (prefix : option bool) (files : found detail) (first : item) s s1 :
  cls self = cls_ObjectFSWrapper ->
  is_truthy_opt prefix = false ->
  fs_find (fs self) p detail None s = (Ok files, s1) ->
  found_values detail files = [first] ->
  find self p detail prefix s = (Raise (UnboundLocalError "path"), s1).
Proof.
  intros Hc Hp Hfind Hone. unfold find. rewrite Hc.
  unfold ObjectFSWrapper_find. rewrite Hp.
  rewrite (bind_ok _ _ _ _ _ (bind_ok _ _ _ _ _ Hfind)). cbn [ret fst snd].
  rewrite Hone. reflexivity.
Qed.

(** C2: with the prefix flag the object-store [find] asks the driver to
    enumerate the parent of the path, restricted to the prefix that is
    the path's last segment, and yields what the driver returned; only a
    result that is the one entry equal to that parent is left to [isdir]
    of the path, which empties it when true. *)
Theorem object_find_prefix_lists_parent self p (detail : bool)
    (prefix : option bool) (seg : string) (rest : list string)
    (files : found detail) s s1 :
  cls self = cls_ObjectFSWrapper ->
  is_truthy_opt prefix = true ->
  rev (parts (path self) p) = seg :: rest ->
  fs_find (fs self) (parent (path self) p) detail (Some seg) s = (Ok files, s1) ->
  find self p detail prefix s
  = if single_self (found_values detail files) (parent (path self) p)
    then match isdir self p s1 with
         | (Ok true, s2) => (Ok [], s2)
         | (Ok false, s2) => (Ok (found_values detail files), s2)
         | (Raise e, s2) => (Raise e, s2)
         end
    else (Ok (found_values detail files), s1).
Proof.
  intros Hc Hp Hseg Hfind. unfold find. rewrite Hc.
  unfold ObjectFSWrapper_find, index_last. rewrite Hp, Hseg.
  unfold load_local, bind, ret, single_self. rewrite Hfind. cbn [fst snd].
  destruct (found_values detail files) as [| first [| second more]];
    try reflexivity.
  destruct (item_eq_str first (parent (path self) p)); [| reflexivity].
  destruct (isdir self p s1) as [[[|] | e] s2]; reflexivity.
Qed.

End ObjectFind.

Lemma object_find_single_entry_unbound_witness :
  find (MemFS.object_store MemFS.no_disk) "data/file" false None Examples.bucket
    = (Raise (UnboundLocalError "path"), Examples.bucket)
  /\ find (MemFS.object_store MemFS.no_disk) "foo" false None Examples.bucket
    = (Raise (UnboundLocalError "path"), Examples.bucket).
Proof.
  split.
  - apply (object_find_single_entry_unbound
             (MemFS.object_store MemFS.no_disk) "data/file" false None
             ["data/file"] (IName "data/file"));
      reflexivity.
  - apply (object_find_single_entry_unbound
             (MemFS.object_store MemFS.no_disk) "foo" false None
             ["foo/"] (IName "foo/"));
      reflexivity.
Defined.

Lemma object_find_prefix_lists_parent_witness :
  find (MemFS.object_store MemFS.no_disk) "a/b" false (Some true) Examples.bucket
  = (Ok [IName "a/bar"; IName "a/baz"], Examples.bucket).
Proof.
  rewrite (object_find_prefix_lists_parent
             (MemFS.object_store MemFS.no_disk) "a/b" false (Some true)
             "b" ["a"] ["a/bar"; "a/baz"] Examples.bucket Examples.bucket
             eq_refl eq_refl eq_refl eq_refl).
  reflexivity.
Defined.

(** ** The in-memory driver keeps the contracts *)

Module MemFSFacts.

Import MemFS.

Lemma lookup_store_same {A} (k : string) (v : A) (l : list (string * A)) :
  lookup k (store k v l) = Some v.
Proof.
  induction l as [| [k' v'] l IH]; simpl.
  - now rewrite String.eqb_refl.
  - destruct (k' =? k) eqn:E; simpl.
    + now rewrite String.eqb_refl.
    + now rewrite E.
Qed.

Lemma in_keys_store {A} (k : string) (v : A) (l : list (string * A)) :
  In k (map fst (store k v l)).
Proof.
  induction l as [| [k' v'] l IH]; simpl.
  - now left.
  - destruct (k' =? k); simpl; [now left | now right].
Qed.

Lemma lookup_delete {A} (k : string) (l : list (string * A)) :
  lookup k (delete k l) = None.
Proof.
  unfold delete. induction l as [| [k' v'] l IH]; simpl; [reflexivity |].
  destruct (k' =? k) eqn:E; simpl; [exact IH | now rewrite E].
Qed.

Lemma is_dir_after_makedirs (w : World) (p : string) :
  is_dir (set_dirs w (dirs w ++ [p])%list) p = true.
Proof.
  unfold is_dir. cbn [dirs set_dirs]. rewrite existsb_app. simpl.
  rewrite String.eqb_refl. now rewrite orb_true_r.
Qed.

Lemma makedirs_contract_holds (disk : LocalDisk) :
  MakedirsContract (driver disk) holds_dir.
Proof.
  constructor; unfold holds_dir; cbn [fs_makedirs driver]; unfold mem_makedirs.
  - intros p s s'. destruct (is_dir s p) eqn:D.
    + intros H. inversion H. now subst.
    + destruct (lookup p (objects s)); intros H; inversion H.
      apply is_dir_after_makedirs.
  - intros p s D. now rewrite D.
Qed.

Lemma hierarchical_contract (disk : LocalDisk) :
  HierarchicalContract PosixPath.helper (driver disk) holds_dir holds_file.
Proof.
  constructor; [apply makedirs_contract_holds | | |];
    unfold holds_dir, holds_file;
    cbn [fs_makedirs fs_copy driver parent PosixPath.helper].
  - intros p s D F. unfold mem_makedirs.
    destruct (is_dir s p); [now contradiction D |].
    destruct (lookup p (objects s)) as [data |].
    + exfalso. apply F. discriminate.
    + eexists. reflexivity.
  - intros p s s' f. unfold mem_makedirs. destruct (is_dir s p).
    + intros H. inversion H. now subst.
    + destruct (lookup p (objects s)); intros H; inversion H. trivial.
  - intros src dst s F D. unfold mem_copy, writable.
    destruct (lookup src (objects s)) as [data |]; [| now contradiction F].
    rewrite D, !orb_true_r. eexists. split; [reflexivity |].
    cbn [objects set_objects]. rewrite lookup_store_same. discriminate.
Qed.

(** *** Paths: a key lies under its own directory name *)

Lemma take_drop_while (f : ascii -> bool) (l : list ascii) :
  (PosixPath.take_while f l ++ PosixPath.drop_while f l)%list = l.
Proof.
  induction l as [| c l IH]; simpl; [reflexivity |].
  destruct (f c); simpl; [now rewrite IH | reflexivity].
Qed.

Lemma take_while_all (f : ascii -> bool) (l : list ascii) :
  forallb f (PosixPath.take_while f l) = true.
Proof.
  induction l as [| c l IH]; simpl; [reflexivity |].
  destruct (f c) eqn:E; simpl; [now rewrite E | reflexivity].
Qed.

Lemma drop_while_head (f : ascii -> bool) (l : list ascii) c rest :
  PosixPath.drop_while f l = c :: rest -> f c = false.
Proof.
  induction l as [| a l IH]; simpl; [discriminate |].
  destruct (f a) eqn:E; [exact IH |].
  intros H. inversion H. now subst.
Qed.

Lemma forallb_rev (f : ascii -> bool) (l : list ascii) :
  forallb f (rev l) = forallb f l.
Proof.
  destruct (forallb f l) eqn:E.
  - rewrite forallb_forall in *. intros x Hx. apply E. now apply in_rev.
  - destruct (forallb f (rev l)) eqn:E'; [| reflexivity].
    rewrite <- E. symmetry. rewrite forallb_forall in *.
    intros x Hx. apply E'. now apply in_rev in Hx.
Qed.

Lemma string_of_app (a b : list ascii) :
  string_of_list_ascii (a ++ b) = string_of_list_ascii a ++ string_of_list_ascii b.
Proof. induction a as [| c a IH]; simpl; [reflexivity | now rewrite IH]. Qed.

Lemma prefix_app (a b : string) : prefix a (a ++ b) = true.
Proof.
  induction a as [| c a IH]; simpl.
  - now destruct b.
  - destruct (ascii_dec c c); [exact IH | contradiction].
Qed.

Lemma append_assoc (a b c : string) : (a ++ b) ++ c = a ++ (b ++ c).
Proof. induction a as [| x a IH]; simpl; [reflexivity | now rewrite IH]. Qed.

(** The reverse of a non-empty run of slashes starts with a slash. *)
Lemma rev_slashes (l : list ascii) :
  l <> [] -> forallb PosixPath.is_slash l = true ->
  exists l', rev l = "/"%char :: l'.
Proof.
  intros Hne Hall. rewrite <- forallb_rev in Hall.
  destruct (rev l) as [| c l'] eqn:R.
  - exfalso. apply Hne. rewrite <- (rev_involutive l), R. reflexivity.
  - simpl in Hall. apply andb_true_iff in Hall as [Hc _].
    unfold PosixPath.is_slash in Hc. apply Ascii.eqb_eq in Hc. subst.
    now exists l'.
Qed.

Lemma dirname_under (k : string) :
  startswith k (under (PosixPath.dirname k)) = true.
Proof.
  unfold startswith, under, PosixPath.dirname, PosixPath.split. cbn [fst].
  set (r := rev (list_ascii_of_string k)).
  set (nonslash := fun c => negb (PosixPath.is_slash c)).
  set (tail_r := PosixPath.take_while nonslash r).
  set (head_r := PosixPath.drop_while nonslash r).
  assert (Hk : k = string_of_list_ascii (rev head_r)
                   ++ string_of_list_ascii (rev tail_r)).
  { rewrite <- string_of_app, <- rev_app_distr.
    unfold tail_r, head_r. rewrite take_drop_while. unfold r.
    now rewrite rev_involutive, string_of_list_ascii_of_string. }
  destruct (forallb PosixPath.is_slash head_r) eqn:All.
  - destruct (string_of_list_ascii (rev head_r) =? "") eqn:E.
    + now destruct k.
    + rewrite list_ascii_of_string_of_list_ascii, forallb_rev, All.
      rewrite Hk at 1. apply prefix_app.
  - set (stem_r := PosixPath.drop_while PosixPath.is_slash head_r).
    assert (Hsplit : head_r
                     = (PosixPath.take_while PosixPath.is_slash head_r ++ stem_r)%list)
      by (symmetry; apply take_drop_while).
    assert (Hstem : stem_r <> []).
    { intros E. rewrite E, app_nil_r in Hsplit.
      rewrite Hsplit, take_while_all in All. discriminate. }
    assert (Hrun : PosixPath.take_while PosixPath.is_slash head_r <> []).
    { destruct head_r as [| c rest] eqn:H; [discriminate |].
      apply drop_while_head in H. unfold nonslash in H.
      apply negb_false_iff in H. simpl. now rewrite H. }
    destruct (rev_slashes _ Hrun (take_while_all _ _)) as [l' Hl'].
    assert (Hnot : forallb PosixPath.is_slash (rev stem_r) = false).
    { rewrite forallb_rev. destruct stem_r as [| c rest] eqn:H;
        [now contradiction Hstem |].
      apply drop_while_head in H. simpl. now rewrite H. }
    destruct (string_of_list_ascii (rev stem_r) =? "") eqn:E.
    + apply String.eqb_eq in E.
      apply (f_equal list_ascii_of_string) in E.
      rewrite list_ascii_of_string_of_list_ascii in E. simpl in E.
      rewrite E in Hnot. discriminate.
    + rewrite list_ascii_of_string_of_list_ascii, Hnot.
      rewrite Hk at 1. rewrite Hsplit at 1.
      rewrite rev_app_distr, Hl', string_of_app. cbn [string_of_list_ascii].
      rewrite !append_assoc. simpl.
      change (String "/" (string_of_list_ascii l' ++ string_of_list_ascii (rev tail_r)))
        with ("/" ++ (string_of_list_ascii l' ++ string_of_list_ascii (rev tail_r))).
      rewrite <- append_assoc. apply prefix_app.
Qed.

Lemma cache_contract (disk : LocalDisk) :
  CacheContract PosixPath.helper (driver disk) holds_key.
Proof.
  constructor; unfold holds_key; cbn [fs_put_file fs_open fs_close fs_ls fs_find
    fs_invalidate_cache driver parent PosixPath.helper].
  - intros local dst cb kw s s'. unfold mem_put_file.
    destruct (disk local) as [data |]; [| discriminate].
    destruct (writable s dst); [| discriminate].
    intros H. apply bind_ok_inv in H as (_ & s1 & _ & H).
    apply bind_ok_inv in H as (_ & s2 & _ & H). inversion H.
    apply in_keys_store.
  - intros p mode s h s'. unfold mem_open.
    destruct (mode =? "wb"); [| destruct (lookup p (objects s))];
      intros H; inversion H; split; reflexivity.
  - intros h s s' H Hmode. unfold mem_close in H. rewrite Hmode in H. simpl in H.
    destruct (lookup_stream (io_id h) (streams s)); inversion H.
    apply in_keys_store.
  - intros q s s' k H. inversion H. trivial.
  - intros q s0 s H. inversion H. unfold mem_ls, mem_ls_names.
    cbn [dircache set_dircache]. rewrite lookup_delete.
    eexists. eexists. split; [reflexivity |].
    intros k Hk Hq. unfold children. apply filter_In. split.
    + apply in_or_app. now left.
    + now apply String.eqb_eq.
  - intros q s0 s H. unfold mem_find.
    eexists. eexists. split; [reflexivity |].
    intros k Hk Hq. unfold find_names. apply filter_In. split; [exact Hk |].
    apply orb_true_iff. right. subst q.
    pose proof (dirname_under k) as U. unfold startswith in *.
    replace (under (PosixPath.dirname k) ++ "") with (under (PosixPath.dirname k));
      [exact U |].
    generalize (under (PosixPath.dirname k)).
    intros u. induction u as [| c u IH]; simpl; [reflexivity | now rewrite <- IH].
Qed.

End MemFSFacts.

(** ** makedirs and copy *)

Section Directories.

Context {St : Type}.
Implicit Types (self : Instance St) (p : string).

Lemma object_makedirs_noop self p (kw : kwargs) s :
  cls self = cls_ObjectFSWrapper -> makedirs self p kw s = (Ok tt, s).
Proof. intros Hc. unfold makedirs. now rewrite Hc. Qed.

(** C6: on the object-store wrapper [makedirs] returns at once with the
    state untouched, whatever the driver and the arguments; on any
    wrapper whose driver keeps the makedirs contract, a [makedirs] with
    exist_ok that succeeded succeeds again and changes nothing. *)
Theorem makedirs_idempotent self (is_directory : St -> string -> Prop)
    p (kw : kwargs) :
  (cls self = cls_ObjectFSWrapper ->
   forall s, makedirs self p kw s = (Ok tt, s))
  /\ (MakedirsContract (fs self) is_directory ->
      truthy (kw_pop "exist_ok" (PyBool true) kw) = true ->
      forall s s1, makedirs self p kw s = (Ok tt, s1) ->
                   makedirs self p kw s1 = (Ok tt, s1)).
Proof.
  split.
  - intros Hc s. now apply object_makedirs_noop.
  - intros C Hok s s1. unfold makedirs. destruct (cls self).
    + unfold FSSpecWrapper_makedirs. rewrite Hok. intros H.
      apply (makedirs_noop _ _ C). exact (makedirs_ensures _ _ C _ _ _ H).
    + unfold ObjectFSWrapper_makedirs, ret. intros H. inversion H. reflexivity.
Qed.

(** C9: on the hierarchical wrapper [copy] first asks the driver to make
    the destination's parent, and runs the driver's copy in the state
    that call left, or not at all when it raised.  With a driver that
    keeps the hierarchical contract, copying an existing file to a
    destination whose parent is not there yet creates the parent and
    succeeds. *)
Theorem copy_creates_missing_parent self
    (is_directory is_file : St -> string -> Prop) (src dst : string) :
  cls self = cls_FSSpecWrapper ->
  (forall s,
      copy self src dst s
      = match fs_makedirs (fs self) (parent (path self) dst) true s with
        | (Ok _, s1) => fs_copy (fs self) src dst s1
        | (Raise e, s1) => (Raise e, s1)
        end)
  /\ (HierarchicalContract (path self) (fs self) is_directory is_file ->
      forall s,
        is_file s src ->
        ~ is_directory s (parent (path self) dst) ->
        ~ is_file s (parent (path self) dst) ->
        exists s1 s2,
          fs_makedirs (fs self) (parent (path self) dst) true s = (Ok tt, s1)
          /\ is_directory s1 (parent (path self) dst)
          /\ copy self src dst s = (Ok tt, s2)
          /\ is_file s2 dst).
Proof.
  intros Hc.
  assert (Hseq : forall s,
             copy self src dst s
             = match fs_makedirs (fs self) (parent (path self) dst) true s with
               | (Ok _, s1) => fs_copy (fs self) src dst s1
               | (Raise e, s1) => (Raise e, s1)
               end).
  { intros s. unfold copy, makedirs. rewrite Hc.
    unfold FSSpecWrapper_makedirs, bind. reflexivity. }
  split; [exact Hseq |].
  intros C s Hsrc Hnodir Hnofile.
  destruct (makedirs_creates _ _ _ _ C _ _ Hnodir Hnofile) as [s1 Hmk].
  pose proof (makedirs_ensures _ _ (makedirs_contract _ _ _ _ C) _ _ _ Hmk) as Hdir.
  pose proof (makedirs_keeps_files _ _ _ _ C _ _ _ _ Hmk Hsrc) as Hsrc1.
  destruct (copy_succeeds _ _ _ _ C src dst s1 Hsrc1 Hdir) as (s2 & Hcp & Hdst).
  exists s1, s2. repeat split; try assumption.
  rewrite Hseq, Hmk. exact Hcp.
Qed.

End Directories.

Lemma makedirs_idempotent_witness :
  exists made,
    makedirs (MemFS.hierarchical MemFS.no_disk) "out" [] Examples.tree
      = (Ok tt, made)
    /\ makedirs (MemFS.hierarchical MemFS.no_disk) "out" [] made = (Ok tt, made)
    /\ makedirs (MemFS.object_store MemFS.no_disk) "out" [] Examples.bucket
       = (Ok tt, Examples.bucket).
Proof.
  eexists. split; [reflexivity |]. split.
  - apply (proj2 (makedirs_idempotent (MemFS.hierarchical MemFS.no_disk)
                    MemFS.holds_dir "out" [])
             (MemFSFacts.makedirs_contract_holds MemFS.no_disk) eq_refl
             Examples.tree).
    reflexivity.
  - apply (proj1 (makedirs_idempotent (MemFS.object_store MemFS.no_disk)
                    MemFS.holds_dir "out" [])).
    reflexivity.
Defined.

Lemma copy_creates_missing_parent_witness :
  fs_copy (MemFS.driver MemFS.no_disk) "src.txt" "out/dst.txt" Examples.tree
    = (Raise FileNotFoundError, Examples.tree)
  /\ exists s1 s2,
       fs_makedirs (MemFS.driver MemFS.no_disk) "out" true Examples.tree
         = (Ok tt, s1)
       /\ MemFS.holds_dir s1 "out"
       /\ copy (MemFS.hierarchical MemFS.no_disk) "src.txt" "out/dst.txt"
            Examples.tree = (Ok tt, s2)
       /\ MemFS.holds_file s2 "out/dst.txt".
Proof.
  split; [reflexivity |].
  apply (proj2 (copy_creates_missing_parent
                  (MemFS.hierarchical MemFS.no_disk)
                  MemFS.holds_dir MemFS.holds_file
                  "src.txt" "out/dst.txt" eq_refl)
           (MemFSFacts.hierarchical_contract MemFS.no_disk) Examples.tree).
  - unfold MemFS.holds_file. simpl. discriminate.
  - unfold MemFS.holds_dir. vm_compute. discriminate.
  - unfold MemFS.holds_file. vm_compute. intros H. now apply H.
Defined.

(** ** put_file *)

Section Uploads.

Context {St : Type}.
Implicit Types (self : Instance St) (dst : string).

(** A [put_file] that returned ran the driver's upload and then the
    invalidation of the parent, in that order. *)
Lemma put_file_invalidates_last self (local : string) dst
    (cb : Callback St) (kw : kwargs) s s' :
  put_file self local dst cb kw s = (Ok tt, s') ->
  exists s0,
    fs_put_file (fs self) local dst cb kw s = (Ok tt, s0)
    /\ fs_invalidate_cache (fs self) (parent (path self) dst) s0 = (Ok tt, s').
Proof.
  unfold put_file. intros H.
  apply bind_ok_inv in H as ([] & s0 & Hput & Hinv). now exists s0.
Qed.

(** The mixin's [put_file] that returned opened the destination for
    writing, closed it, and invalidated the parent right after. *)
Lemma callback_put_file_invalidates_last self (disk : LocalDisk)
    (local : string) dst (cb : Callback St) (kw : kwargs) s s' :
  CallbackMixin_put_file self disk local dst cb kw s = (Ok tt, s') ->
  exists fdest s_open s_open' s_copied s0,
    fs_open (fs self) dst "wb" s_open = (Ok fdest, s_open')
    /\ fs_close (fs self) fdest s_copied = (Ok tt, s0)
    /\ fs_invalidate_cache (fs self) (parent (path self) dst) s0 = (Ok tt, s').
Proof.
  unfold CallbackMixin_put_file. intros H.
  apply bind_ok_inv in H as (_ & s1 & _ & H).
  apply bind_ok_inv in H as (size & s2 & _ & H).
  apply bind_ok_inv in H as (fobj & s3 & _ & H).
  apply with_ok_inv in H as (s4 & H & Hrel). inversion Hrel; subst s4.
  apply bind_ok_inv in H as (_ & s5 & _ & H).
  apply bind_ok_inv in H as ([] & s6 & Hup & Hinv).
  unfold upload_fobj in Hup.
  apply bind_ok_inv in Hup as (_ & s7 & _ & Hup).
  apply bind_ok_inv in Hup as (fdest & s8 & Hopen & Hup).
  apply with_ok_inv in Hup as (s9 & _ & Hclose).
  exists fdest, s7, s8, s9, s6. repeat split; assumption.
Qed.

(** When the driver keeps the cache contract, a [put_file] that
    returned, the wrapper's own or the callback mixin's, leaves a state in
    which [ls] of the destination's parent lists the destination, and in
    which the driver's [find] of the parent holds it too; [find] of the
    wrapper yields that result on the hierarchical class, and on the
    object-store class whenever it has more than the one entry. *)
Theorem put_file_refreshes_listing self (stored : St -> string -> Prop)
    (disk : LocalDisk) (local : string) dst (cb : Callback St) (kw : kwargs)
    s s' :
  CacheContract (path self) (fs self) stored ->
  put_file self local dst cb kw s = (Ok tt, s')
  \/ CallbackMixin_put_file self disk local dst cb kw s = (Ok tt, s') ->
  (exists listing s'',
      ls self (parent (path self) dst) false s' = (Ok listing, s'')
      /\ In (IName dst) listing)
  /\ (exists names s'',
         fs_find (fs self) (parent (path self) dst) false None s' = (Ok names, s'')
         /\ In dst names
         /\ (cls self = cls_FSSpecWrapper \/ List.length names <> 1 ->
             find self (parent (path self) dst) false None s'
             = (Ok (map IName names), s''))).
Proof.
  intros C Hput.
  assert (Hinv : exists s0,
             stored s0 dst
             /\ fs_invalidate_cache (fs self) (parent (path self) dst) s0
                = (Ok tt, s')).
  { destruct Hput as [H | H].
    - apply put_file_invalidates_last in H as (s0 & Hup & Hinv).
      exists s0. split; [| exact Hinv].
      exact (put_file_stores _ _ _ C _ _ _ _ _ _ Hup).
    - apply callback_put_file_invalidates_last in H
        as (fdest & sa & sb & sc & s0 & Hopen & Hclose & Hinv).
      exists s0. split; [| exact Hinv].
      destruct (open_handle _ _ _ C _ _ _ _ _ Hopen) as [Hpath Hmode].
      rewrite <- Hpath. exact (close_stores _ _ _ C _ _ _ Hclose Hmode). }
  destruct Hinv as (s0 & Hstored & Hinv).
  pose proof (invalidate_keeps _ _ _ C _ _ _ _ Hinv Hstored) as Hstill.
  split.
  - destruct (ls_fresh _ _ _ C _ _ _ Hinv) as (names & s'' & Hls & Hall).
    exists (map IName names), s''. split.
    + unfold ls. now rewrite (bind_ok _ _ _ _ _ Hls).
    + apply in_map. now apply Hall.
  - destruct (find_fresh _ _ _ C _ _ _ Hinv) as (names & s'' & Hfind & Hall).
    exists names, s''. repeat split; [exact Hfind | now apply Hall |].
    intros Hcase. unfold find. destruct (cls self) eqn:Hc.
    + unfold FSSpecWrapper_find. now rewrite (bind_ok _ _ _ _ _ Hfind).
    + destruct Hcase as [Habs | Hlen]; [discriminate |].
      unfold ObjectFSWrapper_find. cbn [is_truthy_opt].
      rewrite (bind_ok _ _ _ _ _ (bind_ok _ _ _ _ _ Hfind)). cbn [ret fst snd].
      unfold found_values.
      destruct names as [| a [| b more]]; try reflexivity.
      now contradiction Hlen.
Qed.

End Uploads.

(** Without the invalidation the in-memory driver serves the listing it
    cached before the upload. *)
Lemma stale_listing_without_invalidation :
  fst (fs_ls (MemFS.driver Examples.disk) "a" false
         (snd (fs_put_file (MemFS.driver Examples.disk) "local.bin" "a/new"
                 MemFS.recorder [] Examples.bucket_listed)))
  = Ok ["a/bar"; "a/baz"; "a/qux"].
Proof. vm_compute. reflexivity. Qed.

(** The mixin's upload on the sample bucket: the object holds the local
    bytes, and the callback saw the size, one update per read of two
    bytes, and the update of the empty read that ends the copy. *)
Lemma mixin_upload_on_bucket :
  MemFS.lookup "a/new" (MemFS.objects Examples.uploaded_by_mixin)
    = Some (Examples.bytes "hello")
  /\ MemFS.progress Examples.uploaded_by_mixin
     = [MemFS.SetSize 5; MemFS.RelativeUpdate 2; MemFS.RelativeUpdate 2;
        MemFS.RelativeUpdate 1; MemFS.RelativeUpdate 0].
Proof. split; vm_compute; reflexivity. Qed.

Lemma put_file_refreshes_listing_witness :
  (exists listing s'',
      ls (MemFS.object_store Examples.disk) "a" false Examples.uploaded
      = (Ok listing, s'')
      /\ In (IName "a/new") listing)
  /\ (exists listing s'',
         ls (MemFS.object_store Examples.disk) "a" false Examples.uploaded_by_mixin
         = (Ok listing, s'')
         /\ In (IName "a/new") listing).
Proof.
  assert (Hrun : put_file (MemFS.object_store Examples.disk) "local.bin" "a/new"
                   MemFS.recorder [] Examples.bucket_listed
                 = (Ok tt, Examples.uploaded))
    by (vm_compute; reflexivity).
  assert (Hrun' : CallbackMixin_put_file (MemFS.object_store Examples.disk)
                    Examples.disk "local.bin" "a/new" MemFS.recorder []
                    Examples.bucket_listed
                  = (Ok tt, Examples.uploaded_by_mixin))
    by (vm_compute; reflexivity).
  split.
  - exact (proj1 (put_file_refreshes_listing (MemFS.object_store Examples.disk)
                    MemFS.holds_key Examples.disk "local.bin" "a/new"
                    MemFS.recorder [] Examples.bucket_listed Examples.uploaded
                    (MemFSFacts.cache_contract Examples.disk)
                    (or_introl Hrun))).
  - exact (proj1 (put_file_refreshes_listing (MemFS.object_store Examples.disk)
                    MemFS.holds_key Examples.disk "local.bin" "a/new"
                    MemFS.recorder [] Examples.bucket_listed
                    Examples.uploaded_by_mixin
                    (MemFSFacts.cache_contract Examples.disk)
                    (or_intror Hrun'))).
Defined.

(** * Further properties of the wrappers *)

(** ** isdir, isfile and is_empty together *)

Section DirectoryOutcomes.

Context {St : Type}.
Implicit Types (self : Instance St) (p : string).

(** The three ways the two tests can end from one state: the check
    returned and they are each other's negation, the check reported
    not-found and both are false, or the check raised something else and
    both raise it. *)
Lemma isdir_isfile_outcomes self p s :
  (exists b s1, isdir self p s = (Ok b, s1) /\ isfile self p s = (Ok (negb b), s1))
  \/ (exists s1, _isdir self p s = (Raise FileNotFoundError, s1)
                 /\ isdir self p s = (Ok false, s1)
                 /\ isfile self p s = (Ok false, s1))
  \/ (exists e s1, e <> FileNotFoundError
                   /\ isdir self p s = (Raise e, s1)
                   /\ isfile self p s = (Raise e, s1)).
Proof.
  destruct (_isdir self p s) as [[b | e] s1] eqn:E.
  - left. exists b, s1. now apply isdir_returns.
  - assert (D : e = FileNotFoundError \/ e <> FileNotFoundError)
      by (destruct e; (now left) || (right; discriminate)).
    destruct D as [-> | Hne].
    + right; left. exists s1. split; [reflexivity |]. now apply isdir_recovers.
    + right; right. exists e, s1. split; [exact Hne |]. now apply isdir_reraises.
Qed.

(** X1: from one state [isdir] and [isfile] never both answer true: when
    either returns true the other returns false, and they leave the same
    state. *)
Theorem isdir_isfile_exclusive self p s s1 :
  (isdir self p s = (Ok true, s1) -> isfile self p s = (Ok false, s1))
  /\ (isfile self p s = (Ok true, s1) -> isdir self p s = (Ok false, s1)).
Proof.
  destruct (isdir_isfile_outcomes self p s)
    as [(b & s2 & Hd & Hf) | [(s2 & _ & Hd & Hf) | (e & s2 & _ & Hd & Hf)]];
    rewrite Hd, Hf; split; intros H; inversion H; subst; try reflexivity.
  now destruct b.
Qed.

(** X2: neither [isdir] nor [isfile] ever raises FileNotFoundError,
    whatever the driver does; every other exception of the directory
    check comes out of both, and they raise nothing else: the exception
    of each is the one of [_isdir] with not-found left out. *)
Theorem isdir_isfile_never_not_found self p s :
  raises_not_found (fst (isdir self p s)) = false
  /\ raises_not_found (fst (isfile self p s)) = false
  /\ raised (fst (isdir self p s))
     = without_not_found (raised (fst (_isdir self p s)))
  /\ raised (fst (isfile self p s))
     = without_not_found (raised (fst (_isdir self p s))).
Proof.
  destruct (_isdir self p s) as [[b | e] s1] eqn:E.
  - destruct (isdir_returns _ _ _ _ _ E) as [Hd Hf]. rewrite Hd, Hf.
    repeat split.
  - assert (D : e = FileNotFoundError \/ e <> FileNotFoundError)
      by (destruct e; (now left) || (right; discriminate)).
    destruct D as [-> | Hne].
    + destruct (isdir_recovers _ _ _ _ E) as [Hd Hf]. rewrite Hd, Hf.
      repeat split.
    + destruct (isdir_reraises _ _ _ _ _ Hne E) as [Hd Hf]. rewrite Hd, Hf.
      cbn [fst raised raises_not_found without_not_found].
      repeat split; destruct e; congruence.
Qed.

(** X3: on the object-store wrapper, a path that [isdir] accepts although
    its entry is not of type directory (the zero-byte marker) is empty
    for [is_empty], which answers without listing anything. *)
Theorem marker_directory_is_empty self p s entry s' :
  cls self = cls_ObjectFSWrapper ->
  fs_info (fs self) p s = (Ok entry, s') ->
  e_type entry <> "directory" ->
  isdir self p s = (Ok true, s') ->
  is_empty self p s = (Ok true, s').
Proof.
  intros Hc Hinfo Htype Hdir.
  assert (Hrun : _isdir self p s
                 = (Ok ((e_type entry =? "directory")
                        || (size_is_zero (e_size entry)
                            && (e_type entry =? "file")
                            && endswith (e_name entry) "/")), s')).
  { unfold _isdir. rewrite Hc. unfold ObjectFSWrapper__isdir, info.
    now rewrite (bind_ok _ _ _ _ _ Hinfo). }
  apply isdir_returns in Hrun as [Hd _]. rewrite Hd in Hdir.
  apply String.eqb_neq in Htype.
  injection Hdir as Hb. rewrite Htype in Hb. simpl in Hb.
  apply andb_true_iff in Hb as [Hb _]. apply andb_true_iff in Hb as [Hz _].
  unfold is_empty, info. rewrite (bind_ok _ _ _ _ _ Hinfo), Htype.
  unfold ret. now rewrite Hz.
Qed.


(** The copy loop depends on the instance through the driver's [write]
    alone. *)
Lemma copy_chunks_ext self self' (fsrc : Source St) (fdst : IO)
    (bufs : list (list Byte.byte)) s :
  (forall h buf, fs_write (fs self) h buf = fs_write (fs self') h buf) ->
  copy_chunks self fsrc fdst bufs s = copy_chunks self' fsrc fdst bufs s.
Proof.
  intros Hw. revert s. induction bufs as [| buf rest IH]; intros s;
    [reflexivity |].
  cbn [copy_chunks]. unfold bind.
  destruct (src_on_read fsrc (Z.of_nat (List.length buf)) s) as [[[] | e] s1];
    [| reflexivity].
  rewrite Hw. destruct (fs_write (fs self') fdst buf s1) as [[[] | e] s2];
    [apply IH | reflexivity].
Qed.

(** X5: on the object-store wrapper nothing reaches the driver's
    [makedirs]: [makedirs], [copy], [upload_fobj] and the callback
    mixin's [put_file] behave the same whatever that call would do, and
    [copy] is the driver's copy alone. *)
Theorem object_store_never_makes_directories (helper : PathHelper)
    (d : Driver St) (other : string -> bool -> M St unit) (disk : LocalDisk)
    (src dst : string) (fobj : Source St) (cb : Callback St) (kw : kwargs) s :
  makedirs (mkInstance St cls_ObjectFSWrapper helper (with_makedirs d other)) dst kw s
    = makedirs (mkInstance St cls_ObjectFSWrapper helper d) dst kw s
  /\ copy (mkInstance St cls_ObjectFSWrapper helper (with_makedirs d other)) src dst s
    = fs_copy d src dst s
  /\ upload_fobj (mkInstance St cls_ObjectFSWrapper helper (with_makedirs d other))
       fobj dst kw s
    = upload_fobj (mkInstance St cls_ObjectFSWrapper helper d) fobj dst kw s
  /\ CallbackMixin_put_file
       (mkInstance St cls_ObjectFSWrapper helper (with_makedirs d other))
       disk src dst cb kw s
    = CallbackMixin_put_file (mkInstance St cls_ObjectFSWrapper helper d)
        disk src dst cb kw s.
Proof.
  assert (Hup : forall (src0 : Source St) (kw0 : kwargs) s0,
             upload_fobj
               (mkInstance St cls_ObjectFSWrapper helper (with_makedirs d other))
               src0 dst kw0 s0
             = upload_fobj (mkInstance St cls_ObjectFSWrapper helper d)
                 src0 dst kw0 s0).
  { intros src0 kw0 s0. unfold upload_fobj, makedirs, open_, copyfileobj, bind, with_.
    cbn [cls fs path ObjectFSWrapper_makedirs ret fs_open fs_close with_makedirs].
    destruct (fs_open d dst "wb" s0) as [[fdest | e] s1]; [| reflexivity].
    now rewrite (copy_chunks_ext
                   (mkInstance St cls_ObjectFSWrapper helper (with_makedirs d other))
                   (mkInstance St cls_ObjectFSWrapper helper d)). }
  repeat apply conj; try reflexivity; [apply Hup |].
  unfold CallbackMixin_put_file, makedirs, bind, with_.
  cbn [cls fs path ObjectFSWrapper_makedirs ret fs_invalidate_cache with_makedirs].
  destruct (os_path_getsize disk src s) as [[size | e] s1]; [| reflexivity].
  destruct (open_rb disk src s1) as [[data | e] s2]; [| reflexivity].
  destruct (set_size cb size s2) as [[[] | e] s3]; [| reflexivity].
  now rewrite Hup.
Qed.

End DirectoryOutcomes.

Lemma isdir_isfile_exclusive_witness :
  isfile (MemFS.object_store MemFS.no_disk) "foo" Examples.bucket
    = (Ok false, Examples.bucket)
  /\ isdir (MemFS.object_store MemFS.no_disk) "a/bar" Examples.bucket
    = (Ok false, Examples.bucket).
Proof.
  split.
  - apply (proj1 (isdir_isfile_exclusive (MemFS.object_store MemFS.no_disk)
                    "foo" Examples.bucket Examples.bucket)).
    reflexivity.
  - apply (proj2 (isdir_isfile_exclusive (MemFS.object_store MemFS.no_disk)
                    "a/bar" Examples.bucket Examples.bucket)).
    reflexivity.
Defined.

Lemma marker_directory_is_empty_witness :
  is_empty (MemFS.object_store MemFS.no_disk) "foo" Examples.bucket
  = (Ok true, Examples.bucket).
Proof.
  apply (marker_directory_is_empty (MemFS.object_store MemFS.no_disk) "foo"
           Examples.bucket (MemFS.file_entry "foo/" []));
    try reflexivity.
  simpl. discriminate.
Defined.

(** ** More on find *)

Section FindOutcomes.

Context {St : Type}.
Implicit Types (self : Instance St) (p : string).

(** X6: without the prefix flag, the object-store [find] yields what the
    driver found, names or (detail) the entries of its dict, whenever
    that is not exactly one entry; [isdir] is not consulted and the state
    is the one the driver left. *)
Theorem object_find_plain_passes_through self p (detail : bool)
    (prefix : option bool) (files : found detail) s s1 :
  cls self = cls_ObjectFSWrapper ->
  is_truthy_opt prefix = false ->
  fs_find (fs self) p detail None s = (Ok files, s1) ->
  List.length (found_values detail files) <> 1 ->
  find self p detail prefix s = (Ok (found_values detail files), s1).
Proof.
  intros Hc Hp Hfind Hlen. unfold find. rewrite Hc.
  unfold ObjectFSWrapper_find. rewrite Hp.
  rewrite (bind_ok _ _ _ _ _ (bind_ok _ _ _ _ _ Hfind)). cbn [ret fst snd].
  destruct (found_values detail files) as [| a [| b more]]; try reflexivity.
  now contradiction Hlen.
Qed.

(** X7: with the prefix flag and detail on, the single-entry test of the
    object-store [find] never succeeds, an entry not being a path: the
    driver's entries are yielded as they are, a lone one included, and
    [isdir] is not consulted. *)
Theorem object_find_detail_prefix_unfiltered self p (prefix : option bool)
    (seg : string) (rest : list string) (files : found true) s s1 :
  cls self = cls_ObjectFSWrapper ->
  is_truthy_opt prefix = true ->
  rev (parts (path self) p) = seg :: rest ->
  fs_find (fs self) (parent (path self) p) true (Some seg) s = (Ok files, s1) ->
  find self p true prefix s = (Ok (found_values true files), s1).
Proof.
  intros Hc Hp Hseg Hfind. unfold find. rewrite Hc.
  unfold ObjectFSWrapper_find, index_last. rewrite Hp, Hseg.
  unfold load_local, bind, ret. rewrite Hfind. cbn [fst snd found_values].
  destruct files as [| [k e] [| kv more]]; reflexivity.
Qed.

(** X8: with the prefix flag, a path without any segment makes the
    object-store [find] raise IndexError before the driver is asked
    anything. *)
Theorem object_find_prefix_without_segment self p (detail : bool)
    (prefix : option bool) s :
  cls self = cls_ObjectFSWrapper ->
  is_truthy_opt prefix = true ->
  parts (path self) p = [] ->
  find self p detail prefix s = (Raise IndexError, s).
Proof.
  intros Hc Hp Hparts. unfold find. rewrite Hc.
  unfold ObjectFSWrapper_find, index_last. now rewrite Hp, Hparts.
Qed.

(** X9: the hierarchical [find] yields names only, with detail as
    without: of the driver's detailed result it passes on the keys and
    never an entry. *)
Theorem base_find_yields_names_only self p (detail : bool)
    (prefix : option bool) (yielded : list item) s s' :
  cls self = cls_FSSpecWrapper ->
  find self p detail prefix s = (Ok yielded, s') ->
  forallb is_name yielded = true.
Proof.
  intros Hc. unfold find. rewrite Hc. unfold FSSpecWrapper_find. intros H.
  apply bind_ok_inv in H as (files & s1 & _ & H). inversion H.
  destruct detail; cbn [found_keys];
    rewrite forallb_forall; intros x Hx; apply in_map_iff in Hx as (y & <- & _);
    reflexivity.
Qed.

End FindOutcomes.

Lemma object_find_plain_passes_through_witness :
  find (MemFS.object_store MemFS.no_disk) "a" false None Examples.bucket
  = (Ok [IName "a/bar"; IName "a/baz"; IName "a/qux"], Examples.bucket).
Proof.
  apply (object_find_plain_passes_through (MemFS.object_store MemFS.no_disk)
           "a" false None ["a/bar"; "a/baz"; "a/qux"]);
    try reflexivity.
  simpl. discriminate.
Defined.

Lemma object_find_detail_prefix_unfiltered_witness :
  find (MemFS.object_store MemFS.no_disk) "a/bar" true (Some true) Examples.bucket
  = (Ok [IEntry (MemFS.file_entry "a/bar" (Examples.bytes "1"))], Examples.bucket).
Proof.
  apply (object_find_detail_prefix_unfiltered (MemFS.object_store MemFS.no_disk)
           "a/bar" (Some true) "bar" ["a"]
           [("a/bar", MemFS.file_entry "a/bar" (Examples.bytes "1"))]);
    reflexivity.
Defined.

Lemma object_find_prefix_without_segment_witness :
  find (MemFS.object_store MemFS.no_disk) "" false (Some true) Examples.bucket
  = (Raise IndexError, Examples.bucket).
Proof.
  apply object_find_prefix_without_segment; reflexivity.
Defined.

Lemma base_find_yields_names_only_witness :
  find (MemFS.hierarchical MemFS.no_disk) "src.txt" true None Examples.tree
    = (Ok [IName "src.txt"], Examples.tree)
  /\ forallb is_name [IName "src.txt"] = true.
Proof.
  split; [reflexivity |].
  apply (base_find_yields_names_only (MemFS.hierarchical MemFS.no_disk)
           "src.txt" true None [IName "src.txt"] Examples.tree Examples.tree);
    reflexivity.
Defined.

(** ** More on uploads *)

Section UploadOutcomes.

Context {St : Type}.
Implicit Types (self : Instance St) (dst : string).

(** X10: when the local file is missing, the callback mixin's [put_file]
    raises FileNotFoundError after the parent of the destination was made:
    what [makedirs] did stays, and nothing is opened, reported or
    invalidated. *)
Theorem callback_put_file_missing_local self (disk : LocalDisk)
    (local : string) dst (cb : Callback St) (kw : kwargs) s s1 :
  disk local = None ->
  makedirs self (parent (path self) dst) [] s = (Ok tt, s1) ->
  CallbackMixin_put_file self disk local dst cb kw s
  = (Raise FileNotFoundError, s1).
Proof.
  intros Hgone Hmk. unfold CallbackMixin_put_file.
  rewrite (bind_ok _ _ _ _ _ Hmk). unfold os_path_getsize. now rewrite Hgone.
Qed.

(** X11: [upload_fobj] closes the destination stream when the copy into
    it raised; the caller gets the copy's exception, or the one of the
    close when that raises too, in the state the close left. *)
Theorem upload_fobj_releases_stream self (fobj : Source St) dst (kw : kwargs)
    (fdest : IO) (e : exn) (closed : result unit) s s1 s2 s3 s4 :
  makedirs self (parent (path self) dst) [] s = (Ok tt, s1) ->
  fs_open (fs self) dst "wb" s1 = (Ok fdest, s2) ->
  copyfileobj self fobj fdest (io_blocksize fdest) s2 = (Raise e, s3) ->
  fs_close (fs self) fdest s3 = (closed, s4) ->
  upload_fobj self fobj dst kw s
  = (match closed with
     | Ok _ => Raise e
     | Raise e' => Raise e'
     end, s4).
Proof.
  intros Hmk Hopen Hcopy Hclose. unfold upload_fobj.
  rewrite (bind_ok _ _ _ _ _ Hmk). unfold open_.
  rewrite (bind_ok _ _ _ _ _ Hopen). unfold with_. rewrite Hcopy, Hclose.
  now destruct closed.
Qed.

Lemma makedirs_reported self (cb : Callback St) (reported : St -> Z)
    (p : string) (kw : kwargs) s s' :
  ProgressCounter (fs self) cb reported ->
  makedirs self p kw s = (Ok tt, s') -> reported s' = reported s.
Proof.
  intros C. unfold makedirs. destruct (cls self).
  - apply (makedirs_keeps _ _ _ C).
  - intros H. now inversion H.
Qed.

Lemma copy_chunks_reported self (cb : Callback St) (reported : St -> Z)
    (data : list Byte.byte) (fdst : IO) (bufs : list (list Byte.byte)) s s' :
  ProgressCounter (fs self) cb reported ->
  copy_chunks self (mkSource St data (relative_update cb)) fdst bufs s = (Ok tt, s') ->
  reported s' = (reported s + Z.of_nat (List.length (List.concat bufs)))%Z.
Proof.
  intros C. revert s. induction bufs as [| buf rest IH]; intros s H.
  - cbn [copy_chunks src_on_read] in H.
    rewrite (update_adds _ _ _ C _ _ _ H). simpl. lia.
  - cbn [copy_chunks src_on_read] in H.
    apply bind_ok_inv in H as ([] & sa & Hread & H).
    apply bind_ok_inv in H as ([] & sb & Hwrite & H).
    rewrite (IH _ H), (write_keeps _ _ _ C _ _ _ _ Hwrite),
      (update_adds _ _ _ C _ _ _ Hread).
    cbn [List.concat]. rewrite List.length_app. lia.
Qed.

(** X12: the deltas that the callback mixin's [put_file] reports add up
    to the size of the local file: after an upload that returned, a
    counter of the reported progress has moved by exactly that size. *)
Theorem callback_put_file_reports_size self (disk : LocalDisk)
    (local : string) dst (cb : Callback St) (kw : kwargs)
    (reported : St -> Z) (data : list Byte.byte) s s' :
  ProgressCounter (fs self) cb reported ->
  disk local = Some data ->
  CallbackMixin_put_file self disk local dst cb kw s = (Ok tt, s') ->
  reported s' = (reported s + Z.of_nat (List.length data))%Z.
Proof.
  intros C Hdata H. unfold CallbackMixin_put_file in H.
  apply bind_ok_inv in H as ([] & s1 & Hmk & H).
  unfold os_path_getsize, open_rb in H. rewrite Hdata in H.
  unfold bind at 1, ret at 1 in H. unfold bind at 1, ret at 1 in H.
  apply with_ok_inv in H as (s2 & H & Hrel). inversion Hrel; subst s2.
  apply bind_ok_inv in H as ([] & s3 & Hsize & H).
  apply bind_ok_inv in H as ([] & s4 & Hup & Hinv).
  unfold upload_fobj in Hup.
  apply bind_ok_inv in Hup as ([] & s5 & Hmk' & Hup).
  apply bind_ok_inv in Hup as (fdest & s6 & Hopen & Hup).
  apply with_ok_inv in Hup as (s7 & Hcopy & Hclose).
  unfold copyfileobj in Hcopy. cbn [src_data] in Hcopy.
  rewrite (invalidate_keeps_count _ _ _ C _ _ _ Hinv),
    (close_keeps _ _ _ C _ _ _ Hclose),
    (copy_chunks_reported _ _ _ _ _ _ _ _ C Hcopy), chunks_cover,
    (open_keeps _ _ _ C _ _ _ _ _ Hopen),
    (makedirs_reported _ _ _ _ _ _ _ C Hmk'),
    (set_size_keeps _ _ _ C _ _ _ Hsize),
    (makedirs_reported _ _ _ _ _ _ _ C Hmk).
  reflexivity.
Qed.

Lemma copy_chunks_written self (fsrc : Source St) (fdst : IO)
    (written : St -> IO -> list Byte.byte) (bufs : list (list Byte.byte)) s s' :
  StreamContents (fs self) (src_on_read fsrc) written ->
  copy_chunks self fsrc fdst bufs s = (Ok tt, s') ->
  written s' fdst = (written s fdst ++ List.concat bufs)%list.
Proof.
  intros C. revert s. induction bufs as [| buf rest IH]; intros s H.
  - cbn [copy_chunks] in H. rewrite (read_keeps _ _ _ C _ _ _ _ H).
    simpl. now rewrite app_nil_r.
  - cbn [copy_chunks] in H.
    apply bind_ok_inv in H as ([] & sa & Hread & H).
    apply bind_ok_inv in H as ([] & sb & Hwrite & H).
    rewrite (IH _ H), (write_appends _ _ _ C _ _ _ _ Hwrite),
      (read_keeps _ _ _ C _ _ _ _ Hread).
    cbn [List.concat]. now rewrite app_assoc.
Qed.

(** X13: [upload_fobj] hands the destination stream the bytes of the
    source, all of them and in order, whatever the block size: when it
    returned, the stream it opened held exactly those bytes at the moment
    it was closed. *)
Theorem upload_fobj_writes_source self (fobj : Source St) dst (kw : kwargs)
    (written : St -> IO -> list Byte.byte) s s' :
  StreamContents (fs self) (src_on_read fobj) written ->
  upload_fobj self fobj dst kw s = (Ok tt, s') ->
  exists fdest s_full,
    written s_full fdest = src_data fobj
    /\ fs_close (fs self) fdest s_full = (Ok tt, s').
Proof.
  intros C H. unfold upload_fobj in H.
  apply bind_ok_inv in H as ([] & s1 & _ & H).
  apply bind_ok_inv in H as (fdest & s2 & Hopen & H).
  apply with_ok_inv in H as (s3 & Hcopy & Hclose).
  exists fdest, s3. split; [| exact Hclose].
  unfold copyfileobj in Hcopy.
  rewrite (copy_chunks_written _ _ _ _ _ _ _ C Hcopy), chunks_cover.
  unfold open_ in Hopen. now rewrite (open_fresh _ _ _ C _ _ _ _ Hopen).
Qed.

End UploadOutcomes.

(** *** The in-memory driver under the recording callback *)

Module MemFSStreams.

Import MemFS.

Lemma sum_updates_app (a b : list progress_event) :
  sum_updates (a ++ b) = (sum_updates a + sum_updates b)%Z.
Proof.
  induction a as [| [t | z] a IH]; simpl; [reflexivity | exact IH |].
  rewrite IH. lia.
Qed.

Lemma progress_counter (disk : LocalDisk) :
  ProgressCounter (driver disk) recorder mem_reported.
Proof.
  constructor; unfold mem_reported;
    cbn [relative_update set_size recorder fs_makedirs fs_open fs_write
           fs_close fs_invalidate_cache driver].
  - intros z s s' H. inversion H. cbn [progress add_progress].
    rewrite sum_updates_app. simpl. lia.
  - intros z s s' H. inversion H. cbn [progress add_progress].
    rewrite sum_updates_app. simpl. lia.
  - intros p ok s s'. unfold mem_makedirs.
    destruct (is_dir s p); [destruct ok |
                            destruct (lookup p (objects s))];
      intros H; inversion H; reflexivity.
  - intros p mode h s s'. unfold mem_open.
    destruct (mode =? "wb"); [| destruct (lookup p (objects s))];
      intros H; inversion H; reflexivity.
  - intros h buf s s'. unfold mem_write.
    destruct (lookup_stream (io_id h) (streams s));
      intros H; inversion H; reflexivity.
  - intros h s s'. unfold mem_close.
    destruct (io_mode h =? "wb");
      [destruct (lookup_stream (io_id h) (streams s)) |];
      intros H; inversion H; reflexivity.
  - intros q s s' H. inversion H. reflexivity.
Qed.

Lemma stream_contents (disk : LocalDisk) :
  StreamContents (driver disk) (relative_update recorder) mem_written.
Proof.
  constructor; unfold mem_written;
    cbn [relative_update recorder fs_open fs_write driver].
  - intros p h s s'. unfold mem_open. simpl. intros H. inversion H.
    cbn [io_id streams set_streams lookup_stream]. now rewrite Nat.eqb_refl.
  - intros h buf s s'. unfold mem_write.
    destruct (lookup_stream (io_id h) (streams s)) as [data |] eqn:L;
      intros H; inversion H.
    cbn [streams set_streams lookup_stream fst]. now rewrite Nat.eqb_refl.
  - intros z h s s' H. inversion H. reflexivity.
Qed.

End MemFSStreams.

Lemma callback_put_file_missing_local_witness :
  exists made,
    CallbackMixin_put_file (MemFS.hierarchical MemFS.no_disk) MemFS.no_disk
      "gone.bin" "out/x" MemFS.recorder [] Examples.tree
    = (Raise FileNotFoundError, made)
    /\ MemFS.dirs made = ["out"]
    /\ MemFS.progress made = [].
Proof.
  exists (snd (makedirs (MemFS.hierarchical MemFS.no_disk) "out" [] Examples.tree)).
  split; [| split; reflexivity].
  apply (callback_put_file_missing_local (MemFS.hierarchical MemFS.no_disk)
           MemFS.no_disk "gone.bin" "out/x" MemFS.recorder [] Examples.tree);
    reflexivity.
Defined.

Lemma upload_fobj_releases_stream_witness :
  exists left,
    upload_fobj (MemFS.object_store MemFS.no_disk) broken_source "a/new" []
      Examples.bucket
    = (Raise (OtherError "read failed"), left)
    /\ MemFS.streams left = [].
Proof.
  eexists. split.
  - eapply (upload_fobj_releases_stream (MemFS.object_store MemFS.no_disk)
              broken_source "a/new" [] (mkIO 0 "a/new" "wb" (Some 2%Z))
              (OtherError "read failed") (Ok tt) Examples.bucket);
      vm_compute; reflexivity.
  - reflexivity.
Defined.

Lemma callback_put_file_reports_size_witness :
  mem_reported Examples.uploaded_by_mixin
  = (mem_reported Examples.bucket_listed + 5)%Z.
Proof.
  apply (callback_put_file_reports_size (MemFS.object_store Examples.disk)
           Examples.disk "local.bin" "a/new" MemFS.recorder [] mem_reported
           (Examples.bytes "hello") Examples.bucket_listed
           Examples.uploaded_by_mixin
           (MemFSStreams.progress_counter Examples.disk));
    vm_compute; reflexivity.
Defined.

Lemma upload_fobj_writes_source_witness :
  exists fdest s_full,
    mem_written s_full fdest = Examples.bytes "hello"
    /\ fs_close (MemFS.driver Examples.disk) fdest s_full = (Ok tt, uploaded_stream).
Proof.
  apply (upload_fobj_writes_source (MemFS.object_store Examples.disk)
           hello_source "a/new" [] mem_written Examples.bucket uploaded_stream
           (MemFSStreams.stream_contents Examples.disk)).
  vm_compute. reflexivity.
Defined.

(** ** Construction *)

Lemma kw_get_remove (k k' : string) (d : kwargs) :
  kw_get k (kw_remove k' d) = if k' =? k then None else kw_get k d.
Proof.
  unfold kw_remove. induction d as [| [k0 v0] d IH]; simpl.
  - now destruct (k' =? k).
  - destruct (k0 =? k') eqn:E0; simpl.
    + apply String.eqb_eq in E0. subst k0. rewrite IH.
      now destruct (k' =? k).
    + rewrite IH. destruct (k0 =? k) eqn:E1; [| reflexivity].
      apply String.eqb_eq in E1. subst k0.
      rewrite String.eqb_sym in E0. now rewrite E0.
Qed.

(** X14: the driver arguments taken from a URL never hold the keys
    [path] and [protocol], and hold every other option of the parsed URL
    with its value. *)
Theorem url_kwargs_drop_path_and_protocol
    (infer_storage_options : string -> kwargs) (urlpath k : string) :
  kw_get k (_get_kwargs_from_urls infer_storage_options urlpath)
  = if (k =? "path") || (k =? "protocol") then None
    else kw_get k (infer_storage_options urlpath).
Proof.
  unfold _get_kwargs_from_urls. rewrite !kw_get_remove.
  rewrite (String.eqb_sym "protocol" k), (String.eqb_sym "path" k).
  destruct (k =? "path"), (k =? "protocol"); reflexivity.
Qed.

Lemma kw_get_set (k k' : string) (v : pyval) (d : kwargs) :
  kw_get k (kw_set k' v d) = if k' =? k then Some v else kw_get k d.
Proof.
  induction d as [| [k0 v0] d IH]; simpl.
  - reflexivity.
  - destruct (k0 =? k') eqn:E0; simpl.
    + apply String.eqb_eq in E0. subst k0. now destruct (k' =? k).
    + rewrite IH. destruct (k0 =? k) eqn:E1; [| reflexivity].
      apply String.eqb_eq in E1. subst k0.
      rewrite String.eqb_sym in E0. now rewrite E0.
Qed.

Lemma kw_get_app (k : string) (a b : kwargs) :
  kw_get k (a ++ b)%list = match kw_get k a with
                      | Some v => Some v
                      | None => kw_get k b
                      end.
Proof.
  induction a as [| [k0 v0] a IH]; simpl; [reflexivity |].
  now destruct (k0 =? k).
Qed.

Lemma kw_get_absent (k : string) (d : kwargs) :
  ~ In k (map fst d) -> kw_get k d = None.
Proof.
  induction d as [| [k0 v0] d IH]; simpl; [reflexivity |].
  intros H. destruct (String.eqb_spec k0 k) as [-> | _].
  - exfalso. apply H. now left.
  - apply IH. intros Hin. apply H. now right.
Qed.

(** In a dict, whose keys are distinct, the last binding of a key is its
    only one. *)
Lemma kw_get_rev (k : string) (d : kwargs) :
  NoDup (map fst d) -> kw_get k (rev d) = kw_get k d.
Proof.
  induction d as [| [k0 v0] d IH]; simpl; [reflexivity |].
  intros H. inversion H as [| x l Hnot Hrest]; subst.
  rewrite kw_get_app, (IH Hrest). simpl.
  destruct (String.eqb_spec k0 k) as [-> | _].
  - now rewrite (kw_get_absent _ _ Hnot).
  - now destruct (kw_get k d).
Qed.

Lemma kw_get_update (k : string) (d other : kwargs) :
  kw_get k (kw_update d other)
  = match kw_get k (rev other) with
    | Some v => Some v
    | None => kw_get k d
    end.
Proof.
  unfold kw_update. revert d.
  induction other as [| [k0 v0] other IH]; intros d; simpl; [reflexivity |].
  rewrite IH, kw_get_app, kw_get_set. simpl.
  destruct (kw_get k (rev other)); [reflexivity |].
  now destruct (k0 =? k).
Qed.

(** X15: in the [fs_args] that the constructor leaves, every argument of
    the credentials hook is there with the hook's value, and
    [skip_instance_cache] is True unless the hook sets it; no other key
    appears. *)
Theorem init_fs_args_lookup (prepare : kwargs -> kwargs) (kw : kwargs)
    (k : string) :
  NoDup (map fst (prepare kw)) ->
  kw_get k (init_fs_args prepare kw)
  = match kw_get k (prepare kw) with
    | Some v => Some v
    | None => if k =? "skip_instance_cache" then Some (PyBool true) else None
    end.
Proof.
  intros Hdict. unfold init_fs_args.
  rewrite kw_get_update, (kw_get_rev _ _ Hdict).
  destruct (kw_get k (prepare kw)); [reflexivity |].
  cbn [kw_get]. now rewrite (String.eqb_sym "skip_instance_cache" k).
Qed.

Lemma init_fs_args_lookup_witness :
  kw_get "skip_instance_cache" (init_fs_args _prepare_credentials [("token", PyStr "t")])
    = Some (PyBool true)
  /\ kw_get "skip_instance_cache"
       (init_fs_args sample_credentials [("token", PyStr "t")])
     = Some (PyBool false)
  /\ kw_get "token" (init_fs_args sample_credentials [("token", PyStr "t")])
     = Some (PyStr "t").
Proof.
  repeat apply conj.
  - rewrite (init_fs_args_lookup _prepare_credentials [("token", PyStr "t")]
               "skip_instance_cache"); [reflexivity | constructor].
  - rewrite (init_fs_args_lookup sample_credentials [("token", PyStr "t")]
               "skip_instance_cache"); [reflexivity |].
    simpl. repeat constructor; simpl; intuition discriminate.
  - rewrite (init_fs_args_lookup sample_credentials [("token", PyStr "t")]
               "token"); [reflexivity |].
    simpl. repeat constructor; simpl; intuition discriminate.
Defined.

(** ** Where the driver answers instead of raising *)

(** C3: on the hierarchical wrapper a path for which the driver's
    directory check answers False, as fsspec's own check does for a path
    that does not exist, is a file for [isfile]: [isdir] returns false
    and [isfile] returns true, the handler for not-found never being
    reached. *)
Theorem base_isfile_accepts_missing_path {St} (self : Instance St)
    (p : string) (s s' : St) :
  cls self = cls_FSSpecWrapper ->
  fs_isdir (fs self) p s = (Ok false, s') ->
  isdir self p s = (Ok false, s') /\ isfile self p s = (Ok true, s').
Proof.
  intros Hc H.
  assert (Hrun : _isdir self p s = (Ok false, s'))
    by (unfold _isdir; now rewrite Hc).
  exact (isdir_returns _ _ _ _ _ Hrun).
Qed.

Lemma base_isfile_accepts_missing_path_witness :
  exists_ hierarchical_fsspec "nope" Examples.tree = (Ok false, Examples.tree)
  /\ info hierarchical_fsspec "nope" Examples.tree
     = (Raise FileNotFoundError, Examples.tree)
  /\ isdir hierarchical_fsspec "nope" Examples.tree = (Ok false, Examples.tree)
  /\ isfile hierarchical_fsspec "nope" Examples.tree = (Ok true, Examples.tree).
Proof.
  split; [reflexivity |]. split; [reflexivity |].
  apply (base_isfile_accepts_missing_path hierarchical_fsspec "nope"
           Examples.tree Examples.tree);
    reflexivity.
Defined.

(** ** find after an upload *)

(** C7: on the object-store wrapper, after a [put_file] that returned,
    the wrapper's own or the callback mixin's, into a parent that holds
    nothing else, the driver's [find] of the parent is the one new
    object, [ls] of the parent lists it, and [find] of the wrapper raises
    UnboundLocalError instead of yielding it. *)
Theorem put_file_then_find_unbound {St} (self : Instance St)
    (stored : St -> string -> Prop) (disk : LocalDisk) (local dst : string)
    (cb : Callback St) (kw : kwargs) (names : list string) (s s' s'' : St) :
  cls self = cls_ObjectFSWrapper ->
  CacheContract (path self) (fs self) stored ->
  put_file self local dst cb kw s = (Ok tt, s')
  \/ CallbackMixin_put_file self disk local dst cb kw s = (Ok tt, s') ->
  fs_find (fs self) (parent (path self) dst) false None s' = (Ok names, s'') ->
  List.length names = 1 ->
  names = [dst]
  /\ (exists listing s3,
         ls self (parent (path self) dst) false s' = (Ok listing, s3)
         /\ In (IName dst) listing)
  /\ find self (parent (path self) dst) false None s'
     = (Raise (UnboundLocalError "path"), s'').
Proof.
  intros Hc C Hput Hfind Hlen.
  destruct (put_file_refreshes_listing self stored disk local dst cb kw s s'
              C Hput) as (Hls & names0 & s0 & Hfind0 & Hin & _).
  rewrite Hfind in Hfind0. inversion Hfind0; subst names0 s0.
  assert (Hone : names = [dst]).
  { destruct names as [| a [| b more]]; try discriminate.
    destruct Hin as [-> | []]. reflexivity. }
  split; [exact Hone |]. split; [exact Hls |].
  subst names. unfold find. rewrite Hc. unfold ObjectFSWrapper_find.
  cbn [is_truthy_opt].
  rewrite (bind_ok _ _ _ _ _ (bind_ok _ _ _ _ _ Hfind)). reflexivity.
Qed.

Lemma put_file_then_find_unbound_witness :
  (exists listing s3,
      ls (MemFS.object_store Examples.disk) "fresh" false uploaded_fresh
      = (Ok listing, s3)
      /\ In (IName "fresh/x") listing)
  /\ find (MemFS.object_store Examples.disk) "fresh" false None uploaded_fresh
     = (Raise (UnboundLocalError "path"), uploaded_fresh).
Proof.
  assert (Hrun : put_file (MemFS.object_store Examples.disk) "local.bin"
                   "fresh/x" MemFS.recorder [] Examples.bucket
                 = (Ok tt, uploaded_fresh))
    by (vm_compute; reflexivity).
  assert (Hfind : fs_find (MemFS.driver Examples.disk) "fresh" false None
                    uploaded_fresh
                  = (Ok ["fresh/x"], uploaded_fresh))
    by (vm_compute; reflexivity).
  destruct (put_file_then_find_unbound (MemFS.object_store Examples.disk)
              MemFS.holds_key Examples.disk "local.bin" "fresh/x"
              MemFS.recorder [] ["fresh/x"] Examples.bucket uploaded_fresh
              uploaded_fresh eq_refl
              (MemFSFacts.cache_contract Examples.disk)
              (or_introl Hrun) Hfind eq_refl)
    as (_ & Hls & Hraise).
  split; [exact Hls | exact Hraise].
Defined.
